(** * The document-store registrar for buildings

    A shallow embedding of [pkg/registry/building_dynamodb.go]: the four
    [DynamoRegistrar] methods [ListBuildings], [GetBuildingByID],
    [RegisterBuilding] and [DeregisterBuilding], together with the parts of
    their environment the methods talk to: the Go heap that holds the
    [Building] structs, the DynamoDB client, the attribute-value codec and
    the ULID generator.

    Go returns [(value, error)] pairs with [nil] for "no value" and "no
    error"; both are modelled with [option].  A method is a function from
    the world before the call to the results and the world after it. *)

From Stdlib Require Import ZArith NArith Ascii.
From stdpp Require Import gmap strings list fin_maps.

Local Open Scope Z_scope.
Local Open Scope string_scope.
Local Open Scope list_scope.

(** ** Errors *)

(** The error values the methods can hand back.  [APIError] is what
    [apiutils.NewError] builds, [AWSError] is an [awserr.Error] of the SDK
    identified by its code, [UnmarshalTypeError] comes from the
    attribute-value decoder, and [WithStack] is the wrapper of
    [github.com/pkg/errors]. *)
Inductive error : Type :=
| APIError (status : Z) (message : string)
| AWSError (code : string)
| UnmarshalTypeError (value : string)
| WithStack (cause : error).

Definition NewError (status : Z) (message : string) : error :=
  APIError status message.

(** [net/http]: [StatusBadRequest]. *)
Definition StatusBadRequest : Z := 400.

(** The spec's error kind [InvalidArgument]: an API error carrying the
    bad-request status. *)
Definition InvalidArgument (err : option error) : Prop :=
  ∃ message, err = Some (APIError StatusBadRequest message).

(** ** Entities and the heap *)

(** Modelled from the spec: the struct [Building] is declared outside the
    files at hand; the data model gives it as [{ID: string, Name: string}]. *)
Record Building : Type := { ID : string; Name : string }.

(** What [new(Building)] points to. *)
Definition zeroBuilding : Building := {| ID := ""; Name := "" |}.

(** A [*Building]: [None] is [nil], [Some l] the address of a struct. *)
Definition loc := nat.
Definition pointer := option loc.

(** ** Identifiers *)

(** A ULID: 48 bits of Unix time in milliseconds and 80 bits of entropy. *)
Record ULID : Type := { Millis : N; Entropy : N }.

(** Crockford's base 32 alphabet. *)
Definition Encoding : string := "0123456789ABCDEFGHJKMNPQRSTVWXYZ".

Definition digit32 (d : N) : ascii :=
  default "0"%char (String.get (N.to_nat d) Encoding).

(** The [k] low base-32 digits of [n], most significant first, put in front
    of [acc]. *)
Fixpoint base32 (k : nat) (n : N) (acc : string) : string :=
  match k with
  | O => acc
  | S k' => base32 k' (n / 32)%N (String (digit32 (n mod 32)%N) acc)
  end.

(** [ULID.String]: ten characters of time, then sixteen of entropy. *)
Definition ULIDString (u : ULID) : string :=
  base32 10 (Millis u) (base32 16 (Entropy u) "").

(** The values the generator is going to hand out, and how many it has
    handed out so far.  Clock and entropy are not under the program's
    control, so they come with the world. *)
Record IDSource : Type := { Draw : nat → ULID; Drawn : nat }.

(** ** The DynamoDB client *)

(** [dynamodb.AttributeValue], restricted to the scalar kinds. *)
Inductive AttributeValue : Type :=
| AV_S (s : string)
| AV_N (n : string)
| AV_BOOL (b : bool)
| AV_NULL.

Global Instance AttributeValue_eq_dec : EqDecision AttributeValue.
Proof. solve_decision. Defined.

(** [map[string]*dynamodb.AttributeValue]: an item, or a key. *)
Abbreviation AttrMap := (gmap string AttributeValue).

(** A table with a string hash key: the name of the key attribute and the
    items by key value. *)
Record Table : Type := { HashKey : string; Rows : gmap string AttrMap }.

(** The calls a registrar makes on the client. *)
Inductive Request : Type :=
| Scan (TableName : string)
| GetItem (TableName : string) (Key : AttrMap)
| PutItem (TableName : string) (Item : AttrMap)
| DeleteItem (TableName : string) (Key : AttrMap).

(** The service as seen through one client: its tables, and every call made
    on the client, latest first.  The model is sequential: a read sees
    every earlier write, and a scan returns the whole table in one page, in
    the order of [map_to_list]. *)
Record DynamoDB : Type := { Tables : gmap string Table; Calls : list Request }.

(** [context.Context], as far as the client looks at it: whether it has
    been cancelled or has run past its deadline. *)
Record Context : Type := { Done : bool }.

Record ScanOutput : Type := { Count : option Z; Items : list AttrMap }.
Record GetItemOutput : Type := { Item : option AttrMap }.

Definition called (r : Request) (db : DynamoDB) : DynamoDB :=
  {| Tables := Tables db; Calls := r :: Calls db |}.

(** A request is not sent on a finished context, and the service refuses
    one that names a table it does not have. *)
Definition lookupTable (ctx : Context) (TableName : string) (db : DynamoDB)
  : Table + error :=
  if Done ctx then inr (AWSError "RequestCanceled")
  else match Tables db !! TableName with
       | Some t => inl t
       | None => inr (AWSError "ResourceNotFoundException")
       end.

(** The key value a key map designates: it has to hold the hash key
    attribute, as a string, and nothing else. *)
Definition keyValue (t : Table) (Key : AttrMap) : option string :=
  match Key !! HashKey t with
  | Some (AV_S k) => if decide (size Key = 1%nat) then Some k else None
  | _ => None
  end.

Definition ValidationException : error := AWSError "ValidationException".

Definition setRows (TableName : string) (t : Table) (rows : gmap string AttrMap)
    (db : DynamoDB) : DynamoDB :=
  {| Tables := <[TableName := {| HashKey := HashKey t; Rows := rows |}]> (Tables db);
     Calls := Calls db |}.

Definition ScanWithContext (ctx : Context) (TableName : string) (db : DynamoDB)
  : (ScanOutput * option error) * DynamoDB :=
  let db := called (Scan TableName) db in
  match lookupTable ctx TableName db with
  | inr e => ({| Count := None; Items := [] |}, Some e, db)
  | inl t =>
      let items := (map_to_list (Rows t)).*2 in
      ({| Count := Some (Z.of_nat (length items)); Items := items |}, None, db)
  end.

Definition GetItemWithContext (ctx : Context) (TableName : string) (Key : AttrMap)
    (db : DynamoDB) : (GetItemOutput * option error) * DynamoDB :=
  let db := called (GetItem TableName Key) db in
  match lookupTable ctx TableName db with
  | inr e => ({| Item := None |}, Some e, db)
  | inl t =>
      match keyValue t Key with
      | None => ({| Item := None |}, Some ValidationException, db)
      | Some k => ({| Item := Rows t !! k |}, None, db)
      end
  end.

Definition PutItemWithContext (ctx : Context) (TableName : string) (Item : AttrMap)
    (db : DynamoDB) : option error * DynamoDB :=
  let db := called (PutItem TableName Item) db in
  match lookupTable ctx TableName db with
  | inr e => (Some e, db)
  | inl t =>
      match Item !! HashKey t with
      | Some (AV_S k) => (None, setRows TableName t (<[k := Item]> (Rows t)) db)
      | _ => (Some ValidationException, db)
      end
  end.

Definition DeleteItemWithContext (ctx : Context) (TableName : string) (Key : AttrMap)
    (db : DynamoDB) : option error * DynamoDB :=
  let db := called (DeleteItem TableName Key) db in
  match lookupTable ctx TableName db with
  | inr e => (Some e, db)
  | inl t =>
      match keyValue t Key with
      | None => (Some ValidationException, db)
      | Some k => (None, setRows TableName t (delete k (Rows t)) db)
      end
  end.

(** ** The world and the monad of methods *)

(** What a method can read and change: the [Building] structs alive in the
    program, by address (allocation appends, so an address is never
    reused), the DynamoDB client, and the identifier generator. *)
Record World : Type := { Heap : list Building; DB : DynamoDB; IDs : IDSource }.

(** A computation reads and updates the world; [None] is a Go panic. *)
Definition M (A : Type) : Type := World → option (A * World).

Definition ret {A : Type} (a : A) : M A := λ w, Some (a, w).

Definition bind {A B : Type} (m : M A) (k : A → M B) : M B :=
  λ w, match m w with
       | Some (a, w') => k a w'
       | None => None
       end.

Definition panic {A : Type} : M A := λ _, None.

Declare Scope go_scope.
Delimit Scope go_scope with go.
Notation "x <- c ;; k" := (bind c (λ x, k))
  (at level 100, c at next level, right associativity) : go_scope.
Notation "c ;; k" := (bind c (λ _, k))
  (at level 100, right associativity) : go_scope.
Local Open Scope go_scope.

Definition setHeap (h : list Building) (w : World) : World :=
  {| Heap := h; DB := DB w; IDs := IDs w |}.

Definition setDB (db : DynamoDB) (w : World) : World :=
  {| Heap := Heap w; DB := db; IDs := IDs w |}.

(** [new(Building)] and friends. *)
Definition new (b : Building) : M loc :=
  λ w, Some (length (Heap w), setHeap (Heap w ++ [b]) w).

(** [*l]; a pointer to nowhere panics. *)
Definition load (l : loc) : M Building :=
  λ w, match Heap w !! l with
       | Some b => Some (b, w)
       | None => None
       end.

(** [*l = b]. *)
Definition store (l : loc) (b : Building) : M unit :=
  λ w, match Heap w !! l with
       | Some _ => Some (tt, setHeap (<[l := b]> (Heap w)) w)
       | None => None
       end.

(** A call on the client [dr.DB]. *)
Definition onDB {A : Type} (call : DynamoDB → A * DynamoDB) : M A :=
  λ w, let '(a, db) := call (DB w) in Some (a, setDB db w).

(** Modelled from the spec: [getULID] is declared outside the files at hand.
    Identifier generation "produces globally unique, lexicographically
    sortable identifiers", "fixed-length and safely embeddable as a string
    key"; the function hands out the next value of the generator. *)
Definition getULID : M ULID :=
  λ w, let s := IDs w in
       Some (Draw s (Drawn s),
             {| Heap := Heap w; DB := DB w;
                IDs := {| Draw := Draw s; Drawn := S (Drawn s) |} |}).

(** ** Slices of [*Building] *)

(** [[]*Building]: [nil], or a backing array and the length of the window
    onto it; the capacity is the length of the array. *)
Inductive slice : Type :=
| nil_slice
| Slice (array : list pointer) (len : nat).

Definition elems (s : slice) : list pointer :=
  match s with
  | nil_slice => []
  | Slice array len => take len array
  end.

(** [aws.Int64Value]. *)
Definition Int64Value (v : option Z) : Z := default 0 v.

(** [make([]*Building, n)]; a negative length panics. *)
Definition make (n : Z) : M slice :=
  if (n <? 0)%Z then panic
  else ret (Slice (replicate (Z.to_nat n) None) (Z.to_nat n)).

(** The types the registrar is configured with, declared outside the files
    at hand; the fields are the ones the methods read.  The state behind
    the handle [dr.DB] is the [DB] of the world. *)
Record DynamoConfig : Type := { BuildingTableName : string }.
Record DynamoRegistrar : Type := { Config : DynamoConfig }.

(** ** Sample worlds *)

(** [context.Background()], and a context that has been cancelled. *)
Definition background : Context := {| Done := false |}.
Definition cancelled : Context := {| Done := true |}.

Definition sampleRegistrar : DynamoRegistrar :=
  {| Config := {| BuildingTableName := "buildings" |} |}.

(** A generator that starts on 14 July 2017. *)
Definition sampleIDs : IDSource :=
  {| Draw := λ n, {| Millis := 1500000000000 + N.of_nat n; Entropy := 12345 |};
     Drawn := 0 |}.

Definition emptyTable : Table := {| HashKey := "id"; Rows := ∅ |}.

(** The world of the integration test: an empty table, and the building
    the test is about to register. *)
Definition sampleWorld : World :=
  {| Heap := [ {| ID := "something"; Name := "Main" |} ];
     DB := {| Tables := {[ "buildings" := emptyTable ]}; Calls := [] |};
     IDs := sampleIDs |}.

(** The same world, the caller having put into its building the
    identifier the generator is about to hand out. *)
Definition collisionWorld : World :=
  {| Heap := [ {| ID := "01BMZFF6000000000000000C1S"; Name := "Main" |} ];
     DB := {| Tables := {[ "buildings" := emptyTable ]}; Calls := [] |};
     IDs := sampleIDs |}.

(** A table with two items, the second with a boolean for a name. *)
Definition mixedTable : Table :=
  {| HashKey := "id";
     Rows := {[ "A1" := {[ "id" := AV_S "A1"; "name" := AV_S "Annex" ]};
                "B2" := {[ "id" := AV_S "B2"; "name" := AV_BOOL true ]} ]} |}.

Definition mixedWorld : World :=
  {| Heap := [];
     DB := {| Tables := {[ "buildings" := mixedTable ]}; Calls := [] |};
     IDs := sampleIDs |}.

Section Registrar.

(** The constant [buildingIDAttributeName] and the attribute names the
    struct tags of [Building] give its fields are declared outside the
    files at hand, so they are taken as given.  The collection is "keyed
    by the same identifier": the [ID] field is stored under
    [buildingIDAttributeName]; the [Name] field under another name. *)
Variable buildingIDAttributeName : string.
Variable buildingNameAttributeName : string.
Hypothesis attribute_names_differ :
  buildingIDAttributeName ≠ buildingNameAttributeName.

(** *** [dynamodbattribute]: the codec for [Building] *)

(** A string field is encoded as [S], the empty string as [NULL]. *)
Definition encodeString (s : string) : AttributeValue :=
  if decide (s = "") then AV_NULL else AV_S s.

Definition encodeStruct (b : Building) : AttrMap :=
  <[buildingIDAttributeName := encodeString (ID b)]>
    (<[buildingNameAttributeName := encodeString (Name b)]> ∅).

(** [dynamodbattribute.MarshalMap(building)]. *)
Definition MarshalMap (building : loc) : M (AttrMap * option error) :=
  b <- load building ;;
  ret (encodeStruct b, None).

(** Decoding one attribute into a string field holding [old]: an absent
    attribute leaves the field alone, [S] and [N] set it, [NULL] zeroes
    it, and a [BOOL] does not fit. *)
Definition decodeField (av : option AttributeValue) (old : string)
  : string + error :=
  match av with
  | None => inl old
  | Some (AV_S s) => inl s
  | Some (AV_N n) => inl n
  | Some AV_NULL => inl ""
  | Some (AV_BOOL _) => inr (UnmarshalTypeError "bool")
  end.

(** Decoding an item into a struct, field by field; names are matched
    exactly.  Go visits the attributes of the item in no particular
    order; the order here is [ID], then [Name].  On an error the fields
    set so far stay set. *)
Definition decodeStruct (m : AttrMap) (b : Building) : Building * option error :=
  match decodeField (m !! buildingIDAttributeName) (ID b) with
  | inr e => (b, Some e)
  | inl id =>
      match decodeField (m !! buildingNameAttributeName) (Name b) with
      | inr e => ({| ID := id; Name := Name b |}, Some e)
      | inl name => ({| ID := id; Name := name |}, None)
      end
  end.

Definition decodeMap (m : AttrMap) (l : loc) : M (option error) :=
  b <- load l ;;
  store l (decodeStruct m b).1 ;;
  ret (decodeStruct m b).2.

(** [dynamodbattribute.UnmarshalMap(m, building)]: an empty map decodes
    to nothing at all. *)
Definition UnmarshalMap (m : AttrMap) (building : loc) : M (option error) :=
  if decide (size m = 0%nat) then ret None else decodeMap m building.

(** Decoding one item into an element of a [[]*Building]: a [nil]
    element gets a fresh struct first. *)
Definition decodeElem (m : AttrMap) (p : pointer) : M (pointer * option error) :=
  l <- match p with
       | None => new zeroBuilding
       | Some l => ret l
       end ;;
  err <- UnmarshalMap m l ;;
  ret (Some l, err).

(** The loop of the list decoder: [for i := 0; i < v.Cap() && i <
    len(avList); i++ { v.SetLen(i + 1); decode(avList[i], v.Index(i)) }],
    from index [i] on, the items left being [avList]. *)
Fixpoint decodeElems (avList : list AttrMap) (i : nat) (array : list pointer)
    (len : nat) : M (slice * option error) :=
  match avList with
  | [] => ret (Slice array len, None)
  | m :: rest =>
      match array !! i with
      | None => ret (Slice array len, None)
      | Some p =>
          r <- decodeElem m p ;;
          match r.2 with
          | Some e => ret (Slice (<[i := r.1]> array) (S i), Some e)
          | None => decodeElems rest (S i) (<[i := r.1]> array) (S i)
          end
      end
  end.

(** The list decoder on a slice: a [nil] or too small slice is replaced
    by an empty one of the right capacity. *)
Definition decodeList (avList : list AttrMap) (v : slice) : M (slice * option error) :=
  match v with
  | nil_slice => decodeElems avList 0 (replicate (length avList) None) 0
  | Slice array len =>
      if (length array <? length avList)%nat
      then decodeElems avList 0 (replicate (length avList) None) 0
      else decodeElems avList 0 array len
  end.

(** [dynamodbattribute.UnmarshalListOfMaps(l, &buildings)]: an empty list
    decodes to nothing at all and leaves the slice as it is. *)
Definition UnmarshalListOfMaps (l : list AttrMap) (buildings : slice)
  : M (slice * option error) :=
  if decide (length l = 0%nat) then ret (buildings, None)
  else decodeList l buildings.

(** *** The methods *)

Definition ListBuildings (dr : DynamoRegistrar) (ctx : Context)
  : M (slice * option error) :=
  r <- onDB (ScanWithContext ctx (BuildingTableName (Config dr))) ;;
  let out := r.1 in
  match r.2 with
  | Some err => ret (nil_slice, Some (WithStack err))
  | None =>
      buildings <- make (Int64Value (Count out)) ;;
      r <- UnmarshalListOfMaps (Items out) buildings ;;
      let buildings := r.1 in
      match r.2 with
      | Some err => ret (buildings, Some (WithStack err))
      | None => ret (buildings, None)
      end
  end.

Definition GetBuildingByID (dr : DynamoRegistrar) (ctx : Context)
    (buildingID : string) : M (pointer * option error) :=
  r <- onDB (GetItemWithContext ctx (BuildingTableName (Config dr))
               {[ buildingIDAttributeName := AV_S buildingID ]}) ;;
  let out := r.1 in
  match r.2 with
  | Some err => ret (None, Some (WithStack err))
  | None =>
      match Item out with
      | None => ret (None, None)
      | Some item =>
          building <- new zeroBuilding ;;
          err <- UnmarshalMap item building ;;
          match err with
          | Some err => ret (None, Some (WithStack err))
          | None => ret (Some building, None)
          end
      end
  end.

(** [building.ID = id]. *)
Definition setID (building : loc) (id : string) : M unit :=
  b <- load building ;;
  store building {| ID := id; Name := Name b |}.

Definition RegisterBuilding (dr : DynamoRegistrar) (ctx : Context)
    (in_ : pointer) : M (pointer * option error) :=
  match in_ with
  | None =>
      ret (None, Some (NewError StatusBadRequest "building name is required"))
  | Some l =>
      b <- load l ;;
      if decide (Name b = "")
      then ret (None, Some (NewError StatusBadRequest "building name is required"))
      else
        building <- new zeroBuilding ;;
        b <- load l ;;
        store building b ;;
        u <- getULID ;;
        setID building (ULIDString u) ;;
        r <- MarshalMap building ;;
        let item := r.1 in
        match r.2 with
        | Some err => ret (None, Some (WithStack err))
        | None =>
            err <- onDB (PutItemWithContext ctx
                           (BuildingTableName (Config dr)) item) ;;
            match err with
            | Some err => ret (None, Some (WithStack err))
            | None => ret (Some building, None)
            end
        end
  end.

Definition DeregisterBuilding (dr : DynamoRegistrar) (ctx : Context)
    (buildingID : string) : M (option error) :=
  err <- onDB (DeleteItemWithContext ctx (BuildingTableName (Config dr))
                 {[ buildingIDAttributeName := AV_S buildingID ]}) ;;
  match err with
  | Some err => ret (Some (WithStack err))
  | None => ret None
  end.


(** *** Vocabulary of the statements *)

(** The struct [RegisterBuilding] builds from the input [b] in world [w]:
    the input with the next identifier of the generator as its [ID]. *)
Definition registered (b : Building) (w : World) : Building :=
  {| ID := ULIDString (Draw (IDs w) (Drawn (IDs w))); Name := Name b |}.

(** The world after [b] has been allocated and one identifier drawn. *)
Definition afterNew (b : Building) (w : World) : World :=
  {| Heap := Heap w ++ [b]; DB := DB w;
     IDs := {| Draw := Draw (IDs w); Drawn := S (Drawn (IDs w)) |} |}.

(** The table the registrar keeps its buildings in, if the service has it. *)
Definition buildingTable (dr : DynamoRegistrar) (db : DynamoDB) : option Table :=
  Tables db !! BuildingTableName (Config dr).

(** The struct behind a pointer. *)
Definition deref (p : pointer) (w : World) : option Building :=
  match p with
  | None => None
  | Some l => Heap w !! l
  end.

(** A Go pointer is [nil] or the address of a live struct. *)
Definition live (p : pointer) (w : World) : Prop :=
  p = None ∨ is_Some (deref p w).

(** The inputs [RegisterBuilding] is to turn down: [nil], or a building
    without a name. *)
Definition invalidInput (p : pointer) (w : World) : Prop :=
  p = None ∨ ∃ b, deref p w = Some b ∧ Name b = "".

(** What the caller sees of a run: the results and the heap. *)
Definition outcome {A : Type} (m : M A) (w : World) : option (A * list Building) :=
  (λ r, (r.1, Heap r.2)) <$> m w.

(** *** More vocabulary: what a stored item decodes to *)

Global Instance Building_eq_dec : EqDecision Building.
Proof. solve_decision. Defined.

(** What [UnmarshalMap] makes of an item in a fresh struct, and the error
    it reports. *)
Definition decodeItem (m : AttrMap) : Building * option error :=
  if decide (size m = 0%nat) then (zeroBuilding, None)
  else decodeStruct m zeroBuilding.

(** What the list decoder makes of the items of a scan: the structs it
    allocates, in order, up to and including the first one that fails to
    decode, and the error of that one. *)
Fixpoint decodeItems (items : list AttrMap) : list Building * option error :=
  match items with
  | [] => ([], None)
  | m :: rest =>
      match (decodeItem m).2 with
      | Some e => ([(decodeItem m).1], Some e)
      | None => ((decodeItem m).1 :: (decodeItems rest).1, (decodeItems rest).2)
      end
  end.

(** The items of a table, in the order a scan returns them. *)
Definition scanned (t : Table) : list AttrMap := (map_to_list (Rows t)).*2.

(** The pointers to [n] structs allocated one after the other on heap [h]. *)
Definition freshPointers (h : list Building) (n : nat) : list pointer :=
  Some <$> seq (length h) n.

(** The two kinds of failure the methods pass on, wrapped: one of the
    client, one of the decoder. *)
Definition storageError (err : option error) : Prop :=
  ∃ code, err = Some (WithStack (AWSError code)).

Definition decodeError (err : option error) : Prop :=
  ∃ value, err = Some (WithStack (UnmarshalTypeError value)).

(** *** The integration test of the four methods *)

(** The assertions of [testify] the test uses; each reports whether it
    holds. *)
Definition NoError (err : option error) : bool :=
  match err with
  | None => true
  | Some _ => false
  end.

Definition Nil (p : pointer) : bool :=
  match p with
  | None => true
  | Some _ => false
  end.

Definition NotEmpty (s : string) : bool := bool_decide (s ≠ "").

Definition NotEqual (expected actual : string) : bool :=
  bool_decide (expected ≠ actual).

(** [assert.Equal] on two [*Building]: both nil, or both pointing to
    structs with the same fields. *)
Definition Equal (expected actual : pointer) : M bool :=
  match expected, actual with
  | None, None => ret true
  | Some e, Some a =>
      x <- load e ;;
      y <- load a ;;
      ret (bool_decide (x = y))
  | _, _ => ret false
  end.

(** [*p] for reading a field; on a nil pointer Go panics. *)
Definition pointee (p : pointer) : M Building :=
  match p with
  | None => panic
  | Some l => load l
  end.

(** [TestIntegrationBuildings], against the registrar [testRegistrar]: the
    outcomes of its assertions, in the order the test makes them. *)
Definition TestIntegrationBuildings (testRegistrar : DynamoRegistrar)
  : M (list bool) :=
  (* get nonexistent building *)
  r <- GetBuildingByID testRegistrar background "nonexistent" ;;
  let got1 := [NoError r.2; Nil r.1] in
  (* register building *)
  u <- getULID ;;
  building <- new {| ID := "something"; Name := ULIDString u |} ;;
  r <- RegisterBuilding testRegistrar background (Some building) ;;
  let registeredBuilding := r.1 in
  registered <- pointee registeredBuilding ;;
  given <- load building ;;
  let got2 := [NoError r.2; NotEmpty (ID registered);
               NotEqual (ID given) (ID registered)] in
  (* get existing building *)
  registered <- pointee registeredBuilding ;;
  r <- GetBuildingByID testRegistrar background (ID registered) ;;
  same <- Equal registeredBuilding r.1 ;;
  let got3 := [NoError r.2; same] in
  (* deregister building *)
  registered <- pointee registeredBuilding ;;
  err <- DeregisterBuilding testRegistrar background (ID registered) ;;
  let got4 := [NoError err] in
  (* get deregistered building *)
  registered <- pointee registeredBuilding ;;
  r <- GetBuildingByID testRegistrar background (ID registered) ;;
  let got5 := [NoError r.2; Nil r.1] in
  (* deregister nonexistent building should not error *)
  err <- DeregisterBuilding testRegistrar background "nonexistent" ;;
  let got6 := [NoError err] in
  ret (got1 ++ got2 ++ got3 ++ got4 ++ got5 ++ got6).

(** *** The shape of a table the registrar has written *)

(** A table is well keyed when it is keyed by the ID attribute and every
    item is the encoding of a building, stored under that building's ID. *)
Definition wellKeyed (t : Table) : Prop :=
  HashKey t = buildingIDAttributeName ∧
  ∀ k item, Rows t !! k = Some item →
            ∃ b, item = encodeStruct b ∧ ID b = k.

(** The building table, if the service has it, is well keyed. *)
Definition tableInvariant (dr : DynamoRegistrar) (db : DynamoDB) : Prop :=
  ∀ t, buildingTable dr db = Some t → wellKeyed t.

(** *** One more sample world *)

(** A table holding one building, as [RegisterBuilding] stores it. *)
Definition annexTable : Table :=
  {| HashKey := "id";
     Rows := {[ "A1" := {[ "id" := AV_S "A1"; "name" := AV_S "Annex" ]} ]} |}.

Definition annexWorld : World :=
  {| Heap := [ {| ID := "something"; Name := "Main" |} ];
     DB := {| Tables := {[ "buildings" := annexTable ]}; Calls := [] |};
     IDs := sampleIDs |}.

(** *** Lists, identifiers and the codec *)

Arguments ULIDString : simpl never.
Arguments encodeStruct : simpl never.
Arguments decodeStruct : simpl never.

Lemma lookup_fresh (h : list Building) (x : Building) :
  (h ++ [x]) !! length h = Some x.
Proof. induction h; simpl; auto. Qed.

Lemma insert_fresh (h : list Building) (x y : Building) :
  <[length h := y]> (h ++ [x]) = h ++ [y].
Proof. induction h; simpl; [done|]. by f_equal. Qed.

Lemma base32_length k n acc :
  String.length (base32 k n acc) = (k + String.length acc)%nat.
Proof.
  revert n acc. induction k; intros; simpl; [done|].
  rewrite IHk. simpl. lia.
Qed.

Lemma ULIDString_length u : String.length (ULIDString u) = 26%nat.
Proof. unfold ULIDString. by rewrite !base32_length. Qed.

Lemma ULIDString_nonempty u : ULIDString u ≠ "".
Proof.
  intros H. pose proof (ULIDString_length u) as Hl. by rewrite H in Hl.
Qed.

Lemma decode_encode b b0 : decodeStruct (encodeStruct b) b0 = (b, None).
Proof.
  unfold decodeStruct, encodeStruct.
  rewrite lookup_insert_eq, lookup_insert_ne, lookup_insert_eq by done.
  destruct b as [i n]; simpl. unfold encodeString.
  repeat case_decide; simpl; subst; done.
Qed.

Lemma encodeStruct_size b : size (encodeStruct b) = 2%nat.
Proof.
  unfold encodeStruct. rewrite map_size_insert_None.
  - by rewrite map_size_insert_None, map_size_empty.
  - by rewrite lookup_insert_ne, lookup_empty.
Qed.

Lemma encodeStruct_key b :
  ID b ≠ "" → encodeStruct b !! buildingIDAttributeName = Some (AV_S (ID b)).
Proof.
  intros H. unfold encodeStruct, encodeString. rewrite lookup_insert_eq.
  by case_decide.
Qed.

Lemma decodeField_error av old e :
  decodeField av old = inr e → e = UnmarshalTypeError "bool".
Proof. destruct av as [[]|]; simpl; congruence. Qed.

Lemma decodeStruct_error m b e :
  (decodeStruct m b).2 = Some e → e = UnmarshalTypeError "bool".
Proof.
  unfold decodeStruct.
  destruct (decodeField (m !! buildingIDAttributeName) _) eqn:E1; simpl.
  - destruct (decodeField (m !! buildingNameAttributeName) _) eqn:E2; simpl;
      [done|]. intros [= <-]. eauto using decodeField_error.
  - intros [= <-]. eauto using decodeField_error.
Qed.

(** *** The client *)

Lemma lookupTable_called ctx tbl r db :
  lookupTable ctx tbl (called r db) = lookupTable ctx tbl db.
Proof. reflexivity. Qed.

Lemma lookupTable_served ctx tbl db t :
  Done ctx = false → Tables db !! tbl = Some t → lookupTable ctx tbl db = inl t.
Proof. intros Hc Ht. unfold lookupTable. by rewrite Hc, Ht. Qed.

Lemma lookupTable_error ctx tbl db e :
  lookupTable ctx tbl db = inr e → ∃ code, e = AWSError code.
Proof.
  unfold lookupTable. destruct (Done ctx); [intros [= <-]; eauto|].
  destruct (Tables db !! tbl); [done|]. intros [= <-]; eauto.
Qed.

Lemma keyValue_singleton t a k :
  HashKey t = a → keyValue t {[ a := AV_S k ]} = Some k.
Proof.
  intros <-. unfold keyValue. rewrite lookup_singleton_eq, map_size_singleton.
  by case_decide.
Qed.

Lemma GetItem_served ctx tbl db t a k :
  Done ctx = false → Tables db !! tbl = Some t → HashKey t = a →
  GetItemWithContext ctx tbl {[ a := AV_S k ]} db =
    ({| Item := Rows t !! k |}, None, called (GetItem tbl {[ a := AV_S k ]}) db).
Proof.
  intros Hc Ht Ha. unfold GetItemWithContext.
  rewrite lookupTable_called, (lookupTable_served _ _ _ _ Hc Ht).
  by rewrite (keyValue_singleton _ _ _ Ha).
Qed.

Lemma DeleteItem_served ctx tbl db t a k :
  Done ctx = false → Tables db !! tbl = Some t → HashKey t = a →
  DeleteItemWithContext ctx tbl {[ a := AV_S k ]} db =
    (None, setRows tbl t (delete k (Rows t))
             (called (DeleteItem tbl {[ a := AV_S k ]}) db)).
Proof.
  intros Hc Ht Ha. unfold DeleteItemWithContext.
  rewrite lookupTable_called, (lookupTable_served _ _ _ _ Hc Ht).
  by rewrite (keyValue_singleton _ _ _ Ha).
Qed.

Lemma PutItem_served ctx tbl item db t k :
  Done ctx = false → Tables db !! tbl = Some t →
  item !! HashKey t = Some (AV_S k) →
  PutItemWithContext ctx tbl item db =
    (None, setRows tbl t (<[k := item]> (Rows t)) (called (PutItem tbl item) db)).
Proof.
  intros Hc Ht Hk. unfold PutItemWithContext.
  rewrite lookupTable_called, (lookupTable_served _ _ _ _ Hc Ht).
  by rewrite Hk.
Qed.

Lemma setRows_lookup tbl t rows db :
  Tables (setRows tbl t rows db) !! tbl
  = Some {| HashKey := HashKey t; Rows := rows |}.
Proof. unfold setRows; cbn. apply lookup_insert_eq. Qed.

(** *** The methods, run *)

Lemma RegisterBuilding_valid dr ctx l b w :
  Heap w !! l = Some b → Name b ≠ "" →
  RegisterBuilding dr ctx (Some l) w =
    let r := PutItemWithContext ctx (BuildingTableName (Config dr))
               (encodeStruct (registered b w)) (DB w) in
    Some (match r.1 with
          | Some err => (None, Some (WithStack err))
          | None => (Some (length (Heap w)), None)
          end, setDB r.2 (afterNew (registered b w) w)).
Proof.
  intros Hl Hn. unfold RegisterBuilding, bind, load. rewrite Hl.
  case_decide; [done|].
  unfold new, store, getULID, setID, MarshalMap, bind, load, store, ret,
    onDB, setHeap; simpl.
  rewrite (lookup_app_l_Some _ _ _ _ Hl). cbn.
  rewrite lookup_fresh. cbn. rewrite insert_fresh, lookup_fresh. cbn.
  rewrite lookup_fresh. cbn. rewrite insert_fresh, lookup_fresh. cbn.
  destruct (PutItemWithContext _ _ _ _) as [[e|] db]; cbn; reflexivity.
Qed.

Lemma RegisterBuilding_invalid dr ctx in_ w :
  invalidInput in_ w →
  RegisterBuilding dr ctx in_ w =
    Some (None, Some (APIError StatusBadRequest "building name is required"), w).
Proof.
  intros [->|(b & Hb & Hn)]; [done|].
  destruct in_ as [l|]; [|done]. cbn in Hb.
  unfold RegisterBuilding, bind, load. rewrite Hb. by case_decide.
Qed.

Lemma GetBuildingByID_run dr ctx id w :
  GetBuildingByID dr ctx id w =
    let r := GetItemWithContext ctx (BuildingTableName (Config dr))
               {[ buildingIDAttributeName := AV_S id ]} (DB w) in
    match r.1.2 with
    | Some err => Some (None, Some (WithStack err), setDB r.2 w)
    | None =>
        match Item r.1.1 with
        | None => Some (None, None, setDB r.2 w)
        | Some item =>
            let d := if decide (size item = 0%nat) then (zeroBuilding, None)
                     else decodeStruct item zeroBuilding in
            Some (match d.2 with
                  | Some err => (None, Some (WithStack err))
                  | None => (Some (length (Heap w)), None)
                  end,
                  setHeap (Heap w ++ [d.1]) (setDB r.2 w))
        end
    end.
Proof.
  unfold GetBuildingByID, bind, onDB.
  destruct (GetItemWithContext _ _ _ _) as [[out [e|]] db]; cbn; [done|].
  destruct (Item out) as [item|]; cbn; [|done].
  unfold UnmarshalMap, new, bind, decodeMap, load, store, bind, ret, setHeap. cbn.
  case_decide; cbn; [done|].
  rewrite lookup_fresh. cbn. rewrite lookup_fresh. cbn. rewrite insert_fresh.
  by destruct (decodeStruct _ _) as [b [e|]].
Qed.

Lemma DeregisterBuilding_run dr ctx id w :
  DeregisterBuilding dr ctx id w =
    let r := DeleteItemWithContext ctx (BuildingTableName (Config dr))
               {[ buildingIDAttributeName := AV_S id ]} (DB w) in
    Some (WithStack <$> r.1, setDB r.2 w).
Proof.
  unfold DeregisterBuilding, bind, onDB.
  by destruct (DeleteItemWithContext _ _ _ _) as [[e|] db].
Qed.

(** *** The properties *)

(** What a served [PutItem] of a freshly registered building leaves in
    the table. *)
Lemma RegisterBuilding_served dr ctx l b t w :
  Heap w !! l = Some b → Name b ≠ "" →
  buildingTable dr (DB w) = Some t → HashKey t = buildingIDAttributeName →
  Done ctx = false →
  RegisterBuilding dr ctx (Some l) w =
    Some (Some (length (Heap w)), None,
          setDB (setRows (BuildingTableName (Config dr)) t
                   (<[ID (registered b w) := encodeStruct (registered b w)]> (Rows t))
                   (called (PutItem (BuildingTableName (Config dr))
                              (encodeStruct (registered b w))) (DB w)))
                (afterNew (registered b w) w)).
Proof.
  intros Hl Hn Ht Hk Hc. rewrite (RegisterBuilding_valid _ _ _ _ _ Hl Hn).
  rewrite (PutItem_served _ _ _ _ t (ID (registered b w)) Hc Ht); [done|].
  rewrite Hk. apply encodeStruct_key, ULIDString_nonempty.
Qed.


Lemma GetBuildingByID_absent dr ctx id t w :
  buildingTable dr (DB w) = Some t → HashKey t = buildingIDAttributeName →
  Done ctx = false →
  Rows t !! id = None →
  GetBuildingByID dr ctx id w =
    Some (None, None,
          setDB (called (GetItem (BuildingTableName (Config dr))
                           {[ buildingIDAttributeName := AV_S id ]}) (DB w)) w).
Proof.
  intros Ht Hk Hc Hid. rewrite GetBuildingByID_run.
  rewrite (GetItem_served _ _ _ t _ _ Hc Ht Hk). cbn. by rewrite Hid.
Qed.

Lemma DeregisterBuilding_served dr ctx id t w :
  buildingTable dr (DB w) = Some t → HashKey t = buildingIDAttributeName →
  Done ctx = false →
  DeregisterBuilding dr ctx id w =
    Some (None,
          setDB (setRows (BuildingTableName (Config dr)) t (delete id (Rows t))
                   (called (DeleteItem (BuildingTableName (Config dr))
                              {[ buildingIDAttributeName := AV_S id ]}) (DB w))) w).
Proof.
  intros Ht Hk Hc. rewrite DeregisterBuilding_run.
  by rewrite (DeleteItem_served _ _ _ t _ _ Hc Ht Hk).
Qed.

(** C1. For every valid input building (a live pointer to a building
    with a non-empty name), [RegisterBuilding] followed by
    [GetBuildingByID] with the ID of the returned building yields a
    building equal, field by field, to the one [RegisterBuilding]
    returned.  Both requests are served: the contexts are live and the
    building table exists, keyed by the building ID attribute. *)
Theorem register_get_roundtrip dr ctx ctx' l b t w :
  Heap w !! l = Some b → Name b ≠ "" →
  buildingTable dr (DB w) = Some t → HashKey t = buildingIDAttributeName →
  Done ctx = false → Done ctx' = false →
  ∃ q w1 returned,
    RegisterBuilding dr ctx (Some l) w = Some (Some q, None, w1) ∧
    Heap w1 !! q = Some returned ∧
    ∃ p w2,
      GetBuildingByID dr ctx' (ID returned) w1 = Some (Some p, None, w2) ∧
      Heap w2 !! p = Some returned ∧ Heap w2 !! q = Some returned.
Proof.
  intros Hl Hn Ht Hk Hc Hc'.
  eexists _, _, (registered b w).
  split; [by apply RegisterBuilding_served|].
  split; [apply lookup_fresh|].
  rewrite GetBuildingByID_run.
  erewrite GetItem_served;
    [|done|cbn [DB setDB]; apply setRows_lookup|by cbn].
  cbn -[registered]. rewrite lookup_insert_eq.
  rewrite decide_False by (rewrite encodeStruct_size; lia).
  rewrite decode_encode. cbn -[registered].
  eexists _, _. split; [reflexivity|]. cbn -[registered].
  split; [apply lookup_fresh|].
  apply lookup_app_l_Some, lookup_fresh.
Qed.

(** C2. For every ID whose key is absent from the building table,
    [GetBuildingByID] returns a nil building and a nil error; it
    allocates nothing and changes no table.  The request is served. *)
Theorem get_absent_is_nil dr ctx id t w :
  buildingTable dr (DB w) = Some t → HashKey t = buildingIDAttributeName →
  Done ctx = false →
  Rows t !! id = None →
  ∃ w', GetBuildingByID dr ctx id w = Some (None, None, w') ∧
        Heap w' = Heap w ∧ Tables (DB w') = Tables (DB w).
Proof.
  intros Ht Hk Hc Hid.
  rewrite (GetBuildingByID_absent _ _ _ _ _ Ht Hk Hc Hid). by eexists.
Qed.

(** C3, amended.  For every input building [RegisterBuilding] accepts,
    the ID of the returned building is the identifier the generator hands
    out for this call, a string of 26 characters, whatever ID the caller
    supplied: the caller's ID is always overwritten.  The returned ID
    differs from the input's ID unless the caller supplied that very
    identifier; it differs in particular from every ID that is not 26
    characters long, the empty string included.  The code never compares
    the generated identifier with the caller's. *)
Theorem register_overwrites_id dr ctx in_ given q w w' :
  deref in_ w = Some given →
  RegisterBuilding dr ctx in_ w = Some (Some q, None, w') →
  ∃ returned,
    Heap w' !! q = Some returned ∧
    ID returned = ULIDString (Draw (IDs w) (Drawn (IDs w))) ∧
    String.length (ID returned) = 26%nat ∧
    (ID given ≠ ULIDString (Draw (IDs w) (Drawn (IDs w))) →
     ID returned ≠ ID given) ∧
    (String.length (ID given) ≠ 26%nat → ID returned ≠ ID given).
Proof.
  intros Hin Hreg. destruct in_ as [l|]; [|done]. cbn in Hin.
  destruct (decide (Name given = "")) as [Hn|Hn].
  { rewrite RegisterBuilding_invalid in Hreg; [done|].
    right. exists given. by split. }
  rewrite (RegisterBuilding_valid _ _ _ _ _ Hin Hn) in Hreg. cbn zeta in Hreg.
  destruct (PutItemWithContext _ _ _ _) as [[e|] db]; [done|].
  injection Hreg as <- <-. cbn -[registered].
  exists (registered given w).
  split; [apply lookup_fresh|]. split; [done|].
  split; [apply ULIDString_length|]. split.
  - intros Hne Heq. apply Hne. by rewrite <- Heq.
  - intros Hne Heq. apply Hne. rewrite <- Heq. apply ULIDString_length.
Qed.

(** C4. [RegisterBuilding] fails with an [InvalidArgument] error exactly
    when its input is nil or the input's name is the empty string; in
    that case the returned building is nil and the world is as before:
    no call has been made on the client, no table written. *)
Theorem register_invalid_argument dr ctx in_ w :
  live in_ w →
  ∃ building err w',
    RegisterBuilding dr ctx in_ w = Some (building, err, w') ∧
    (InvalidArgument err ↔ invalidInput in_ w) ∧
    (InvalidArgument err →
     building = None ∧ w' = w ∧ Calls (DB w') = Calls (DB w)).
Proof.
  intros Hlive.
  assert (invalidInput in_ w ∨
          ∃ l b, in_ = Some l ∧ Heap w !! l = Some b ∧ Name b ≠ "")
    as [Hinv|(l & b & -> & Hl & Hn)].
  { destruct Hlive as [->|[b Hb]]; [by left; left|].
    destruct in_ as [l|]; [|done].
    destruct (decide (Name b = "")); [left; right|right]; eauto. }
  - eexists _, _, _. split; [by apply RegisterBuilding_invalid|].
    split; [|done]. split; [done|]. intros _. by eexists.
  - rewrite (RegisterBuilding_valid _ _ _ _ _ Hl Hn). cbn zeta.
    assert (¬ invalidInput (Some l) w) as Hvalid.
    { intros [?|(b' & Hb' & ?)]; [done|]. cbn in Hb'. congruence. }
    destruct (PutItemWithContext _ _ _ _) as [[e|] db]; cbn;
      eexists _, _, _; (split; [reflexivity|]);
      (split; [split; [intros [? [=]]|done]|intros [? [=]]]).
Qed.

(** C5. For every ID, registered or not, [DeregisterBuilding] returns no
    error, and afterwards the table holds nothing under that ID.  The
    request is served. *)
Theorem deregister_never_fails dr ctx id t w :
  buildingTable dr (DB w) = Some t → HashKey t = buildingIDAttributeName →
  Done ctx = false →
  ∃ w' t', DeregisterBuilding dr ctx id w = Some (None, w') ∧
           buildingTable dr (DB w') = Some t' ∧
           Rows t' = delete id (Rows t).
Proof.
  intros Ht Hk Hc. rewrite (DeregisterBuilding_served _ _ _ _ _ Ht Hk Hc).
  eexists _, _. split; [reflexivity|].
  split; [apply setRows_lookup|done].
Qed.

(** C6. For every successfully registered building, after
    [DeregisterBuilding] on its ID a subsequent [GetBuildingByID] with
    that ID returns a nil building and a nil error.  The three requests
    are served. *)
Theorem register_deregister_get dr ctx ctx' ctx'' l b t w :
  Heap w !! l = Some b → Name b ≠ "" →
  buildingTable dr (DB w) = Some t → HashKey t = buildingIDAttributeName →
  Done ctx = false → Done ctx' = false → Done ctx'' = false →
  ∃ q w1 returned,
    RegisterBuilding dr ctx (Some l) w = Some (Some q, None, w1) ∧
    Heap w1 !! q = Some returned ∧
    ∃ w2 w3,
      DeregisterBuilding dr ctx' (ID returned) w1 = Some (None, w2) ∧
      GetBuildingByID dr ctx'' (ID returned) w2 = Some (None, None, w3).
Proof.
  intros Hl Hn Ht Hk Hc Hc' Hc''.
  eexists _, _, (registered b w).
  split; [by apply RegisterBuilding_served|].
  split; [apply lookup_fresh|].
  eexists _, _.
  split.
  { apply DeregisterBuilding_served; [apply setRows_lookup|by cbn|done]. }
  eapply GetBuildingByID_absent; [apply setRows_lookup|by cbn|done|].
  cbn. apply lookup_delete_eq.
Qed.

(** C7. When the building table is empty, [ListBuildings] returns an
    empty slice that is not nil, and a nil error.  The request is
    served. *)
Theorem list_of_empty_table dr ctx t w :
  buildingTable dr (DB w) = Some t → Done ctx = false →
  Rows t = ∅ →
  ∃ buildings w',
    ListBuildings dr ctx w = Some (buildings, None, w') ∧
    buildings ≠ nil_slice ∧ elems buildings = [].
Proof.
  intros Ht Hc Hrows. unfold ListBuildings, bind, onDB, ScanWithContext.
  cbn zeta. rewrite lookupTable_called, (lookupTable_served _ _ _ _ Hc Ht).
  rewrite Hrows, map_to_list_empty. cbn.
  eexists _, _. split; [reflexivity|]. by split.
Qed.

Lemma ScanWithContext_error ctx tbl db out e db' :
  ScanWithContext ctx tbl db = (out, Some e, db') → ∃ code, e = AWSError code.
Proof.
  unfold ScanWithContext. cbn zeta. rewrite lookupTable_called.
  destruct (lookupTable ctx tbl db) as [t|e'] eqn:E; [done|].
  intros [= _ <- _]. eauto using lookupTable_error.
Qed.

Lemma decodeElem_error m p w p' e w' :
  decodeElem m p w = Some (p', Some e, w') → e = UnmarshalTypeError "bool".
Proof.
  unfold decodeElem, bind.
  destruct (match p with Some l => ret l | None => new zeroBuilding end w)
    as [[l w1]|]; [|done].
  unfold UnmarshalMap. case_decide; [done|].
  unfold decodeMap, bind.
  destruct (load l w1) as [[b w2]|]; [|done].
  destruct (store l _ w2) as [[[] w3]|]; [|done]. cbn.
  intros [= _ He _]. eauto using decodeStruct_error.
Qed.

(** When the list decoder stops on an error at index [j], the slice it
    leaves behind has length [j + 1]. *)
Lemma decodeElems_error avList i array len w s e w' :
  decodeElems avList i array len w = Some (s, Some e, w') →
  e = UnmarshalTypeError "bool" ∧
  ∃ array' j, s = Slice array' (S j) ∧ (j < length array')%nat.
Proof.
  revert i array len w. induction avList as [|m rest IH]; intros i array len w;
    cbn; [done|].
  destruct (array !! i) as [p|] eqn:Hp; [|done].
  unfold bind at 1.
  destruct (decodeElem m p w) as [[[p' [e'|]] w1]|] eqn:Hd; cbn; [| |done].
  - intros [= <- <- <-]. split; [eauto using decodeElem_error|].
    eexists _, _. split; [done|].
    rewrite length_insert. eauto using lookup_lt_Some.
  - apply IH.
Qed.

(** On a decode failure [ListBuildings] hands back, next to the error,
    a slice that is neither nil nor empty. *)
Lemma ListBuildings_decode_error dr ctx w buildings value w' :
  ListBuildings dr ctx w
  = Some (buildings, Some (WithStack (UnmarshalTypeError value)), w') →
  buildings ≠ nil_slice ∧ elems buildings ≠ [].
Proof.
  unfold ListBuildings, bind at 1, onDB.
  destruct (ScanWithContext _ _ _) as [[out [e|]] db] eqn:Hscan; cbn.
  { apply ScanWithContext_error in Hscan as [code ->]. done. }
  unfold bind.
  destruct (make _ _) as [[s0 w1]|]; [|done].
  destruct (UnmarshalListOfMaps _ _ _) as [[[s [e|]] w2]|] eqn:Hu; cbn;
    [|done|done].
  intros [= <- -> <-].
  unfold UnmarshalListOfMaps in Hu. case_decide; [done|].
  assert (∃ array' j, s = Slice array' (S j) ∧ (j < length array')%nat)
    as (array' & j & -> & Hj).
  { unfold decodeList in Hu. destruct s0; [|case_match];
      by apply decodeElems_error in Hu as [_ ?]. }
  split; [done|]. cbn. destruct array'; [cbn in Hj; lia|done].
Qed.

(** C9. [RegisterBuilding] does not change any struct that was alive
    before the call, the caller's input among them, and on success the
    building it returns is a new struct that equals the input in every
    field except [ID]. *)
Theorem register_leaves_input dr ctx in_ w :
  live in_ w →
  ∃ building err w',
    RegisterBuilding dr ctx in_ w = Some (building, err, w') ∧
    (∀ l b, Heap w !! l = Some b → Heap w' !! l = Some b) ∧
    (err = None →
     ∃ q given returned,
       building = Some q ∧ in_ ≠ Some q ∧
       deref in_ w = Some given ∧ deref in_ w' = Some given ∧
       Heap w' !! q = Some returned ∧
       returned = {| ID := ID returned; Name := Name given |}).
Proof.
  intros Hlive.
  assert (invalidInput in_ w ∨
          ∃ l b, in_ = Some l ∧ Heap w !! l = Some b ∧ Name b ≠ "")
    as [Hinv|(l & b & -> & Hl & Hn)].
  { destruct Hlive as [->|[b Hb]]; [by left; left|].
    destruct in_ as [l|]; [|done].
    destruct (decide (Name b = "")); [left; right|right]; eauto. }
  - eexists _, _, _. split; [by apply RegisterBuilding_invalid|].
    split; [done|done].
  - rewrite (RegisterBuilding_valid _ _ _ _ _ Hl Hn). cbn zeta.
    destruct (PutItemWithContext _ _ _ _) as [[e|] db]; cbn -[registered];
      eexists _, _, _; (split; [reflexivity|]);
      (split; [intros l' b' Hb'; by apply lookup_app_l_Some|]); [done|].
    intros _. exists (length (Heap w)), b, (registered b w).
    split; [done|]. split.
    { intros [= ->]. apply lookup_lt_Some in Hl. lia. }
    split; [done|]. split; [by apply lookup_app_l_Some|].
    split; [apply lookup_fresh|done].
Qed.

(** C10. [RegisterBuilding] and [GetBuildingByID] never return both a
    building and an error: whenever the error is not nil, the building
    is. *)
Theorem no_building_with_error dr ctx in_ buildingID w :
  live in_ w →
  (∃ building err w',
     RegisterBuilding dr ctx in_ w = Some (building, err, w') ∧
     (is_Some err → building = None)) ∧
  (∃ building err w',
     GetBuildingByID dr ctx buildingID w = Some (building, err, w') ∧
     (is_Some err → building = None)).
Proof.
  intros Hlive. split.
  - assert (invalidInput in_ w ∨
            ∃ l b, in_ = Some l ∧ Heap w !! l = Some b ∧ Name b ≠ "")
      as [Hinv|(l & b & -> & Hl & Hn)].
    { destruct Hlive as [->|[b Hb]]; [by left; left|].
      destruct in_ as [l|]; [|done].
      destruct (decide (Name b = "")); [left; right|right]; eauto. }
    + eexists _, _, _. split; [by apply RegisterBuilding_invalid|done].
    + rewrite (RegisterBuilding_valid _ _ _ _ _ Hl Hn). cbn zeta.
      destruct (PutItemWithContext _ _ _ _) as [[e|] db]; cbn;
        eexists _, _, _; (split; [reflexivity|]); [done|by intros [? ?]].
  - rewrite GetBuildingByID_run. cbn zeta.
    destruct (GetItemWithContext _ _ _ _) as [[out [e|]] db]; cbn.
    { eexists _, _, _. by split. }
    destruct (Item out) as [item|]; cbn.
    + destruct (if decide (size item = 0%nat) then _ else _) as [d [e|]]; cbn;
        eexists _, _, _; (split; [reflexivity|]); [done|by intros [? ?]].
    + eexists _, _, _. split; [reflexivity|by intros [? ?]].
Qed.


(** *** The list decoder and [ListBuildings], run *)

Arguments decodeItem : simpl never.

Lemma World_eta w : {| Heap := Heap w; DB := DB w; IDs := IDs w |} = w.
Proof. by destruct w. Qed.

Lemma insert_middle (pre : list pointer) (x y : pointer) (rest : list pointer) :
  <[length pre := y]> (pre ++ x :: rest) = pre ++ y :: rest.
Proof. induction pre; cbn; [done|]. by f_equal. Qed.

Lemma decodeElem_nil m w :
  decodeElem m None w =
    Some (Some (length (Heap w)), (decodeItem m).2,
          setHeap (Heap w ++ [(decodeItem m).1]) w).
Proof.
  unfold decodeElem, UnmarshalMap, decodeItem, new, bind, decodeMap, load,
    store, bind, ret, setHeap. cbn.
  case_decide; cbn; [done|].
  rewrite lookup_fresh. cbn. rewrite lookup_fresh. cbn. by rewrite insert_fresh.
Qed.

Lemma decodeElems_fresh items : ∀ pre k len w,
  decodeElems items (length pre) (pre ++ replicate (length items + k) None) len w =
    Some (Slice (pre ++ freshPointers (Heap w) (length (decodeItems items).1)
                     ++ replicate (length items + k - length (decodeItems items).1) None)
                (match items with
                 | [] => len
                 | _ => length pre + length (decodeItems items).1
                 end),
          (decodeItems items).2,
          setHeap (Heap w ++ (decodeItems items).1) w).
Proof.
  induction items as [|m rest IH]; intros pre k len w.
  - cbn. unfold ret, setHeap. rewrite app_nil_r, World_eta.
    by rewrite Nat.sub_0_r.
  - cbn [decodeElems length Nat.add replicate].
    rewrite (list_lookup_middle pre _ None (length pre) eq_refl).
    unfold bind at 1. rewrite decodeElem_nil. cbn [fst snd].
    rewrite insert_middle.
    cbn [decodeItems].
    destruct (decodeItem m) as [b [e|]] eqn:Hd; cbn [fst snd].
    + unfold ret, freshPointers. cbn. by rewrite Nat.sub_0_r, Nat.add_1_r.
    + rewrite (cons_middle (Some (length (Heap w))) pre), app_assoc.
      replace (S (length pre)) with (length (pre ++ [Some (length (Heap w))]))
        by (rewrite length_app; cbn; lia).
      rewrite IH. unfold setHeap, freshPointers. cbn.
      rewrite !length_app. cbn.
      rewrite <- !app_assoc. cbn.
      replace (length (Heap w) + 1)%nat with (S (length (Heap w))) by lia.
      destruct rest as [|m' rest']; [done|]. by rewrite <- Nat.add_assoc.
Qed.

Lemma ListBuildings_refused dr ctx e w :
  lookupTable ctx (BuildingTableName (Config dr)) (DB w) = inr e →
  ListBuildings dr ctx w =
    Some (nil_slice, Some (WithStack e),
          setDB (called (Scan (BuildingTableName (Config dr))) (DB w)) w).
Proof.
  intros He. unfold ListBuildings, bind, onDB, ScanWithContext. cbn zeta.
  by rewrite lookupTable_called, He.
Qed.

Lemma ListBuildings_served dr ctx t w :
  buildingTable dr (DB w) = Some t → Done ctx = false →
  ListBuildings dr ctx w =
    Some (Slice (freshPointers (Heap w) (length (decodeItems (scanned t)).1)
                   ++ replicate (length (scanned t)
                                 - length (decodeItems (scanned t)).1) None)
                (length (decodeItems (scanned t)).1),
          WithStack <$> (decodeItems (scanned t)).2,
          setHeap (Heap w ++ (decodeItems (scanned t)).1)
            (setDB (called (Scan (BuildingTableName (Config dr))) (DB w)) w)).
Proof.
  intros Ht Hc. unfold ListBuildings, bind at 1, onDB, ScanWithContext.
  cbn zeta. rewrite lookupTable_called, (lookupTable_served _ _ _ _ Hc Ht).
  fold (scanned t). cbn [fst snd Count Items Int64Value default].
  unfold bind at 1, make, id.
  destruct (Z.ltb_spec (Z.of_nat (length (scanned t))) 0) as [Hneg|_]; [lia|].
  unfold ret at 1. rewrite Nat2Z.id.
  unfold bind, UnmarshalListOfMaps. case_decide as Hlen.
  - apply length_zero_iff_nil in Hlen. rewrite Hlen. cbn.
    unfold ret, setHeap, freshPointers. cbn. by rewrite app_nil_r.
  - unfold decodeList. rewrite length_replicate, Nat.ltb_irrefl.
    pose proof (decodeElems_fresh (scanned t) [] 0 (length (scanned t))) as Hrun.
    cbn [length app] in Hrun. rewrite Nat.add_0_r in Hrun. rewrite Hrun.
    destruct (scanned t) as [|m rest] eqn:Hitems; [done|].
    cbn [fst snd]. by destruct (decodeItems (m :: rest)).2.
Qed.

Lemma decodeItems_ok items :
  (decodeItems items).2 = None →
  (decodeItems items).1 = (λ m, (decodeItem m).1) <$> items.
Proof.
  induction items as [|m rest IH]; cbn; [done|].
  destruct (decodeItem m).2; cbn; [done|]. intros H. by rewrite IH.
Qed.

Lemma decodeItems_Forall items :
  Forall (λ m, (decodeItem m).2 = None) items → (decodeItems items).2 = None.
Proof.
  induction 1 as [|m rest Hm _ IH]; cbn; [done|]. by rewrite Hm.
Qed.

Lemma elems_fresh h n k :
  elems (Slice (freshPointers h n ++ replicate k None) n) = freshPointers h n.
Proof.
  cbn. apply take_app_length'. unfold freshPointers.
  by rewrite length_fmap, length_seq.
Qed.

Lemma freshPointers_lookup h n i :
  (i < n)%nat → freshPointers h n !! i = Some (Some (length h + i)%nat).
Proof.
  intros Hi. unfold freshPointers. rewrite list_lookup_fmap.
  by rewrite lookup_seq_lt.
Qed.

Lemma ListBuildings_decodable dr ctx t w :
  buildingTable dr (DB w) = Some t → Done ctx = false →
  Forall (λ m, (decodeItem m).2 = None) (scanned t) →
  ∃ buildings w',
    ListBuildings dr ctx w = Some (buildings, None, w') ∧
    length (elems buildings) = size (Rows t) ∧
    (∀ i item, scanned t !! i = Some item →
       ∃ p, elems buildings !! i = Some (Some p) ∧
            Heap w !! p = None ∧
            Heap w' !! p = Some (decodeItem item).1) ∧
    (∀ l b, Heap w !! l = Some b → Heap w' !! l = Some b) ∧
    Tables (DB w') = Tables (DB w).
Proof.
  intros Ht Hc Hok. apply decodeItems_Forall in Hok.
  rewrite (ListBuildings_served _ _ _ _ Ht Hc), Hok.
  rewrite (decodeItems_ok _ Hok), length_fmap.
  eexists _, _. split; [reflexivity|]. rewrite elems_fresh.
  split.
  { unfold freshPointers, scanned.
    by rewrite length_fmap, length_seq, length_fmap, length_map_to_list. }
  split; [|split; [|done]].
  - intros i item Hi. exists (length (Heap w) + i)%nat.
    split; [apply freshPointers_lookup; eauto using lookup_lt_Some|].
    split; [apply lookup_ge_None; lia|]. cbn.
    rewrite lookup_app_r by lia.
    replace (length (Heap w) + i - length (Heap w))%nat with i by lia.
    by rewrite list_lookup_fmap, Hi.
  - intros l b Hl. cbn. by apply lookup_app_l_Some.
Qed.

(** X1. When the scan is served and every item of the table decodes,
    [ListBuildings] returns a nil error and a slice with one element per
    item: the i-th element is a pointer to a newly allocated struct that
    holds what the i-th scanned item decodes to.  No struct that was alive
    before is changed, and no table. *)
Theorem list_returns_every_item dr ctx t w :
  buildingTable dr (DB w) = Some t → Done ctx = false →
  Forall (λ m, (decodeItem m).2 = None) (scanned t) →
  ∃ buildings w',
    ListBuildings dr ctx w = Some (buildings, None, w') ∧
    length (elems buildings) = size (Rows t) ∧
    (∀ i item, scanned t !! i = Some item →
       ∃ p, elems buildings !! i = Some (Some p) ∧
            Heap w !! p = None ∧
            Heap w' !! p = Some (decodeItem item).1) ∧
    (∀ l b, Heap w !! l = Some b → Heap w' !! l = Some b) ∧
    Tables (DB w') = Tables (DB w).
Proof.
  intros Ht Hc Hok. apply decodeItems_Forall in Hok.
  rewrite (ListBuildings_served _ _ _ _ Ht Hc), Hok.
  rewrite (decodeItems_ok _ Hok), length_fmap.
  eexists _, _. split; [reflexivity|]. rewrite elems_fresh.
  split.
  { unfold freshPointers, scanned.
    by rewrite length_fmap, length_seq, length_fmap, length_map_to_list. }
  split; [|split; [|done]].
  - intros i item Hi. exists (length (Heap w) + i)%nat.
    split; [apply freshPointers_lookup; eauto using lookup_lt_Some|].
    split; [apply lookup_ge_None; lia|]. cbn.
    rewrite lookup_app_r by lia.
    replace (length (Heap w) + i - length (Heap w))%nat with i by lia.
    by rewrite list_lookup_fmap, Hi.
  - intros l b Hl. cbn. by apply lookup_app_l_Some.
Qed.

Lemma decodeItem_encode b : decodeItem (encodeStruct b) = (b, None).
Proof.
  unfold decodeItem. rewrite decide_False by (rewrite encodeStruct_size; lia).
  apply decode_encode.
Qed.

Lemma scanned_elem_of t item :
  item ∈ scanned t ↔ ∃ k, Rows t !! k = Some item.
Proof.
  unfold scanned. rewrite list_elem_of_fmap. split.
  - intros ([k x] & -> & Hin). apply elem_of_map_to_list in Hin. eauto.
  - intros [k Hk]. exists (k, item). split; [done|].
    by apply elem_of_map_to_list.
Qed.

(** X2. A registered building shows up in the list.  On a table whose
    items all are encoded buildings, [RegisterBuilding] followed by
    [ListBuildings] gives a nil error and a slice one of whose elements
    points to a struct equal to the building [RegisterBuilding] returned.
    Both requests are served. *)
Theorem list_after_register dr ctx ctx' l b t w :
  Heap w !! l = Some b → Name b ≠ "" →
  buildingTable dr (DB w) = Some t → HashKey t = buildingIDAttributeName →
  (∀ k item, Rows t !! k = Some item → ∃ stored, item = encodeStruct stored) →
  Done ctx = false → Done ctx' = false →
  ∃ q w1 returned buildings w2,
    RegisterBuilding dr ctx (Some l) w = Some (Some q, None, w1) ∧
    Heap w1 !! q = Some returned ∧
    ListBuildings dr ctx' w1 = Some (buildings, None, w2) ∧
    ∃ i p, elems buildings !! i = Some (Some p) ∧ Heap w2 !! p = Some returned.
Proof.
  intros Hl Hn Ht Hk Henc Hc Hc'.
  eexists _, _, (registered b w).
  rewrite (RegisterBuilding_served _ _ _ _ _ _ Hl Hn Ht Hk Hc).
  set (t1 := {| HashKey := HashKey t;
                Rows := <[ID (registered b w) := encodeStruct (registered b w)]>
                          (Rows t) |}).
  set (w1 := setDB _ _).
  assert (buildingTable dr (DB w1) = Some t1) as Ht1 by apply setRows_lookup.
  assert (∀ item, item ∈ scanned t1 → ∃ stored, item = encodeStruct stored)
    as Henc1.
  { intros item [k Hitem]%scanned_elem_of. cbn in Hitem.
    destruct (decide (ID (registered b w) = k)) as [<-|Hne].
    - rewrite lookup_insert_eq in Hitem. injection Hitem as <-. eauto.
    - rewrite lookup_insert_ne in Hitem by done. eauto. }
  destruct (ListBuildings_decodable dr ctx' t1 w1 Ht1 Hc')
    as (buildings & w2 & Hlist & _ & Hitems & _).
  { apply Forall_forall. intros item [stored ->]%Henc1.
    by rewrite decodeItem_encode. }
  assert (encodeStruct (registered b w) ∈ scanned t1) as Hin.
  { apply scanned_elem_of. exists (ID (registered b w)).
    apply lookup_insert_eq. }
  apply list_elem_of_lookup in Hin as [i Hi].
  destruct (Hitems i _ Hi) as (p & Hp & _ & Hheap).
  rewrite decodeItem_encode in Hheap.
  exists buildings, w2. split; [done|]. split; [apply lookup_fresh|].
  split; [done|]. by exists i, p.
Qed.

(** X3. [ListBuildings] only reads: whatever it returns, it has made one
    [Scan] call on the configured table and nothing else, no table is
    changed and no struct that was alive before is touched.  When the scan
    fails, because the context is finished or the table is missing, the
    slice it returns is nil and nothing has been allocated. *)
Theorem list_only_reads dr ctx w :
  ∃ buildings err w',
    ListBuildings dr ctx w = Some (buildings, err, w') ∧
    Tables (DB w') = Tables (DB w) ∧
    Calls (DB w') = Scan (BuildingTableName (Config dr)) :: Calls (DB w) ∧
    (∀ l b, Heap w !! l = Some b → Heap w' !! l = Some b) ∧
    (Done ctx = true ∨ buildingTable dr (DB w) = None →
     buildings = nil_slice ∧ is_Some err ∧ Heap w' = Heap w).
Proof.
  destruct (lookupTable ctx (BuildingTableName (Config dr)) (DB w))
    as [t|e] eqn:Hlook.
  - assert (Done ctx = false ∧ buildingTable dr (DB w) = Some t) as [Hc Ht].
    { unfold lookupTable in Hlook. unfold buildingTable.
      destruct (Done ctx); [done|].
      destruct (Tables (DB w) !! _); [|done]. by injection Hlook as ->. }
    rewrite (ListBuildings_served _ _ _ _ Ht Hc).
    eexists _, _, _. split; [reflexivity|]. split; [done|]. split; [done|].
    split.
    + intros l b Hl. cbn. by apply lookup_app_l_Some.
    + intros [Hd|Hnone]; congruence.
  - rewrite (ListBuildings_refused _ _ _ _ Hlook).
    eexists _, _, _. split; [reflexivity|]. by repeat split.
Qed.

(** *** What the client calls leave behind *)

Lemma GetItem_db ctx tbl key db :
  (GetItemWithContext ctx tbl key db).2 = called (GetItem tbl key) db.
Proof.
  unfold GetItemWithContext. cbn zeta.
  destruct (lookupTable _ _ _); [|done]. by destruct (keyValue _ _).
Qed.

Lemma GetItem_error ctx tbl key db e :
  (GetItemWithContext ctx tbl key db).1.2 = Some e → ∃ code, e = AWSError code.
Proof.
  unfold GetItemWithContext. cbn zeta. rewrite lookupTable_called.
  destruct (lookupTable ctx tbl db) as [t|e'] eqn:Hlook.
  - destruct (keyValue _ _); cbn; [done|]. intros [= <-]. by eexists.
  - cbn. intros [= <-]. eauto using lookupTable_error.
Qed.

Lemma keyValue_singleton_inv t a id k :
  keyValue t {[ a := AV_S id ]} = Some k → HashKey t = a ∧ k = id.
Proof.
  unfold keyValue. destruct (_ !! HashKey t) as [[s| | |]|] eqn:Hlook; try done.
  apply lookup_singleton_Some in Hlook as [<- [= <-]].
  case_decide; [|done]. by intros [= <-].
Qed.

(** A [DeleteItem] by key either fails and changes nothing, or is served
    by a table keyed by that attribute and deletes that key. *)
Lemma DeleteItem_cases ctx tbl a id db :
  (∃ code, DeleteItemWithContext ctx tbl {[ a := AV_S id ]} db
           = (Some (AWSError code), called (DeleteItem tbl {[ a := AV_S id ]}) db)) ∨
  (∃ t, Done ctx = false ∧ Tables db !! tbl = Some t ∧ HashKey t = a ∧
        DeleteItemWithContext ctx tbl {[ a := AV_S id ]} db
        = (None, setRows tbl t (delete id (Rows t))
                   (called (DeleteItem tbl {[ a := AV_S id ]}) db))).
Proof.
  unfold DeleteItemWithContext. cbn zeta. rewrite lookupTable_called.
  destruct (lookupTable ctx tbl db) as [t|e] eqn:Hlook.
  - destruct (keyValue _ _) as [k|] eqn:Hkey.
    + apply keyValue_singleton_inv in Hkey as [Ha ->]. right. exists t.
      unfold lookupTable in Hlook. destruct (Done ctx); [done|].
      destruct (Tables db !! tbl); [|done]. by injection Hlook as ->.
    + left. by eexists.
  - left. apply lookupTable_error in Hlook as [code ->]. by eexists.
Qed.

(** A [PutItem] either fails and changes nothing, or is served by a table
    and puts the item under the string it holds for the table's key. *)
Lemma PutItem_cases ctx tbl item db :
  (∃ code, PutItemWithContext ctx tbl item db
           = (Some (AWSError code), called (PutItem tbl item) db)) ∨
  (∃ t k, Done ctx = false ∧ Tables db !! tbl = Some t ∧
          item !! HashKey t = Some (AV_S k) ∧
          PutItemWithContext ctx tbl item db
          = (None, setRows tbl t (<[k := item]> (Rows t))
                     (called (PutItem tbl item) db))).
Proof.
  unfold PutItemWithContext. cbn zeta. rewrite lookupTable_called.
  destruct (lookupTable ctx tbl db) as [t|e] eqn:Hlook.
  - assert (Done ctx = false ∧ Tables db !! tbl = Some t) as [Hc Ht].
    { unfold lookupTable in Hlook. destruct (Done ctx); [done|].
      destruct (Tables db !! tbl); [|done]. by injection Hlook as ->. }
    destruct (item !! HashKey t) as [[k| | |]|] eqn:Hkey;
      try (left; by eexists).
    right. by exists t, k.
  - left. apply lookupTable_error in Hlook as [code ->]. by eexists.
Qed.

Lemma setRows_other tbl t rows db name :
  name ≠ tbl → Tables (setRows tbl t rows db) !! name = Tables db !! name.
Proof. intros Hne. unfold setRows; cbn. by apply lookup_insert_ne. Qed.

Lemma GetBuildingByID_stored dr ctx id t item w :
  buildingTable dr (DB w) = Some t → HashKey t = buildingIDAttributeName →
  Done ctx = false →
  Rows t !! id = Some item →
  GetBuildingByID dr ctx id w =
    Some (match (decodeItem item).2 with
          | Some err => (None, Some (WithStack err))
          | None => (Some (length (Heap w)), None)
          end,
          setHeap (Heap w ++ [(decodeItem item).1])
            (setDB (called (GetItem (BuildingTableName (Config dr))
                              {[ buildingIDAttributeName := AV_S id ]}) (DB w)) w)).
Proof.
  intros Ht Hk Hc Hid. rewrite GetBuildingByID_run.
  rewrite (GetItem_served _ _ _ t _ _ Hc Ht Hk). cbn. by rewrite Hid.
Qed.

(** X4. [GetBuildingByID] only reads: whatever it returns, it has made one
    [GetItem] call, for the given ID on the configured table, and nothing
    else; no table is changed and no struct that was alive before is
    touched.  A building it returns is a newly allocated struct. *)
Theorem get_only_reads dr ctx buildingID w :
  ∃ building err w',
    GetBuildingByID dr ctx buildingID w = Some (building, err, w') ∧
    Tables (DB w') = Tables (DB w) ∧
    Calls (DB w') = GetItem (BuildingTableName (Config dr))
                      {[ buildingIDAttributeName := AV_S buildingID ]}
                    :: Calls (DB w) ∧
    (∀ l b, Heap w !! l = Some b → Heap w' !! l = Some b) ∧
    (∀ p, building = Some p → Heap w !! p = None ∧ is_Some (Heap w' !! p)).
Proof.
  rewrite GetBuildingByID_run. cbn zeta. rewrite GetItem_db.
  destruct (GetItemWithContext _ _ _ _).1 as [out [e|]]; cbn.
  { eexists _, _, _. by repeat split. }
  destruct (Item out) as [item|]; cbn.
  - fold (decodeItem item).
    destruct (decodeItem item) as [d [e|]]; cbn;
      eexists _, _, _; (split; [reflexivity|]); cbn;
      (split; [done|]); (split; [done|]);
      (split; [intros l b Hl; by apply lookup_app_l_Some|]); [done|].
    intros p [= <-].
    split; [apply lookup_ge_None; lia|]. rewrite lookup_fresh. by eexists.
  - eexists _, _, _. by repeat split.
Qed.

(** X5. Two calls of [GetBuildingByID] for the same stored building give
    two different structs with the same contents: a caller who changes
    one result does not change the other.  Both requests are served and
    the stored item decodes. *)
Theorem get_twice_no_alias dr ctx ctx' id t item w :
  buildingTable dr (DB w) = Some t → HashKey t = buildingIDAttributeName →
  Done ctx = false → Done ctx' = false →
  Rows t !! id = Some item → (decodeItem item).2 = None →
  ∃ p1 w1 p2 w2,
    GetBuildingByID dr ctx id w = Some (Some p1, None, w1) ∧
    GetBuildingByID dr ctx' id w1 = Some (Some p2, None, w2) ∧
    p1 ≠ p2 ∧
    Heap w2 !! p1 = Some (decodeItem item).1 ∧
    Heap w2 !! p2 = Some (decodeItem item).1.
Proof.
  intros Ht Hk Hc Hc' Hid Hok.
  rewrite (GetBuildingByID_stored _ _ _ _ _ _ Ht Hk Hc Hid), Hok.
  eexists _, _. eexists _, _. split; [reflexivity|].
  rewrite (GetBuildingByID_stored _ ctx' id t item); [|done..].
  rewrite Hok. split; [reflexivity|]. cbn. rewrite length_app. cbn.
  split; [lia|]. split.
  - apply lookup_app_l_Some, lookup_fresh.
  - replace (length (Heap w) + 1)%nat with (length (Heap w ++ [(decodeItem item).1]))
      by (rewrite length_app; cbn; lia).
    apply lookup_fresh.
Qed.

(** X6. Deregistering twice is deregistering once: both calls return no
    error, and the second leaves every table as the first left it.  Both
    requests are served. *)
Theorem deregister_twice dr ctx ctx' id t w :
  buildingTable dr (DB w) = Some t → HashKey t = buildingIDAttributeName →
  Done ctx = false → Done ctx' = false →
  ∃ w1 w2,
    DeregisterBuilding dr ctx id w = Some (None, w1) ∧
    DeregisterBuilding dr ctx' id w1 = Some (None, w2) ∧
    Tables (DB w2) = Tables (DB w1) ∧ Heap w2 = Heap w.
Proof.
  intros Ht Hk Hc Hc'.
  rewrite (DeregisterBuilding_served _ _ _ _ _ Ht Hk Hc).
  eexists _, _. split; [reflexivity|].
  erewrite DeregisterBuilding_served; [|apply setRows_lookup|by cbn|done].
  split; [reflexivity|]. cbn. split; [|done].
  by rewrite delete_delete_eq, insert_insert_eq.
Qed.

(** X7. [DeregisterBuilding] removes at most the item under the given ID:
    whatever it returns, the heap and every other table are as before, the
    building table keeps its key and every item under another ID, and when
    it reports an error no table has changed at all. *)
Theorem deregister_removes_only_that_item dr ctx id w :
  ∃ err w',
    DeregisterBuilding dr ctx id w = Some (err, w') ∧
    Heap w' = Heap w ∧
    (∀ name, name ≠ BuildingTableName (Config dr) →
             Tables (DB w') !! name = Tables (DB w) !! name) ∧
    (is_Some err → Tables (DB w') = Tables (DB w)) ∧
    (∀ t, buildingTable dr (DB w) = Some t →
          ∃ t', buildingTable dr (DB w') = Some t' ∧ HashKey t' = HashKey t ∧
                ∀ k, k ≠ id → Rows t' !! k = Rows t !! k).
Proof.
  rewrite DeregisterBuilding_run. cbn zeta.
  destruct (DeleteItem_cases ctx (BuildingTableName (Config dr))
              buildingIDAttributeName id (DB w))
    as [[code ->]|(t & Hc & Ht & Hk & ->)]; cbn.
  - eexists _, _. split; [reflexivity|]. split; [done|]. split; [done|].
    split; [done|]. intros t Ht. by exists t.
  - eexists _, _. split; [reflexivity|]. split; [done|].
    split; [intros name Hne; by apply lookup_insert_ne|].
    split; [by intros [? ?]|].
    intros t0 Ht0. unfold buildingTable in Ht0. rewrite Ht in Ht0.
    injection Ht0 as <-. eexists. split; [apply lookup_insert_eq|].
    split; [done|]. intros k Hne. cbn. by apply lookup_delete_ne.
Qed.

Lemma decodeItem_error m e :
  (decodeItem m).2 = Some e → e = UnmarshalTypeError "bool".
Proof.
  unfold decodeItem. case_decide; [done|]. apply decodeStruct_error.
Qed.

Lemma decodeItems_error items e :
  (decodeItems items).2 = Some e → e = UnmarshalTypeError "bool".
Proof.
  induction items as [|m rest IH]; cbn; [done|].
  destruct (decodeItem m).2 as [e'|] eqn:Hd; cbn; [|done].
  intros [= <-]. eauto using decodeItem_error.
Qed.

(** X8. What [RegisterBuilding] stores is what it returns.  On success the
    building table has gained, or had replaced, exactly one item, the
    encoding of the returned building, under that building's ID when the
    table is keyed by the ID attribute; there is no check for an item
    already stored under that ID.  When it reports an error it returns no
    building and no table has changed.  No other table is ever touched. *)
Theorem register_stores_what_it_returns dr ctx in_ w :
  live in_ w →
  ∃ building err w',
    RegisterBuilding dr ctx in_ w = Some (building, err, w') ∧
    (∀ name, name ≠ BuildingTableName (Config dr) →
             Tables (DB w') !! name = Tables (DB w) !! name) ∧
    (is_Some err → building = None ∧ Tables (DB w') = Tables (DB w)) ∧
    (err = None →
     ∃ q returned t k,
       building = Some q ∧ Heap w' !! q = Some returned ∧
       buildingTable dr (DB w) = Some t ∧
       buildingTable dr (DB w')
       = Some {| HashKey := HashKey t;
                 Rows := <[k := encodeStruct returned]> (Rows t) |} ∧
       (HashKey t = buildingIDAttributeName → k = ID returned)).
Proof.
  intros Hlive.
  assert (invalidInput in_ w ∨
          ∃ l b, in_ = Some l ∧ Heap w !! l = Some b ∧ Name b ≠ "")
    as [Hinv|(l & b & -> & Hl & Hn)].
  { destruct Hlive as [->|[b Hb]]; [by left; left|].
    destruct in_ as [l|]; [|done].
    destruct (decide (Name b = "")); [left; right|right]; eauto. }
  - rewrite (RegisterBuilding_invalid _ _ _ _ Hinv).
    eexists _, _, _. split; [reflexivity|]. by repeat split.
  - rewrite (RegisterBuilding_valid _ _ _ _ _ Hl Hn). cbn zeta.
    destruct (PutItem_cases ctx (BuildingTableName (Config dr))
                (encodeStruct (registered b w)) (DB w))
      as [[code ->]|(t & k & Hc & Ht & Hkey & ->)]; cbn -[registered].
    + eexists _, _, _. split; [reflexivity|]. by repeat split.
    + eexists _, _, _. split; [reflexivity|].
      split; [intros name Hne; by apply lookup_insert_ne|].
      split; [by intros [? ?]|]. intros _.
      exists (length (Heap w)), (registered b w), t, k.
      split; [done|]. split; [apply lookup_fresh|]. split; [done|].
      split; [apply lookup_insert_eq|].
      intros Hk. rewrite Hk, encodeStruct_key in Hkey
        by apply ULIDString_nonempty.
      by injection Hkey as <-.
Qed.

(** X9. No raw error leaves the methods.  An error of [ListBuildings] or
    [GetBuildingByID] is an error of the client or of the decoder, wrapped
    by [WithStack]; an error of [DeregisterBuilding] is a wrapped error of
    the client; an error of [RegisterBuilding] is the bad-request API
    error or a wrapped error of the client. *)
Theorem errors_are_wrapped dr ctx in_ buildingID w :
  (∀ buildings err w',
     ListBuildings dr ctx w = Some (buildings, err, w') →
     err = None ∨ storageError err ∨ decodeError err) ∧
  (∀ building err w',
     GetBuildingByID dr ctx buildingID w = Some (building, err, w') →
     err = None ∨ storageError err ∨ decodeError err) ∧
  (∀ building err w',
     RegisterBuilding dr ctx in_ w = Some (building, err, w') →
     err = None ∨ InvalidArgument err ∨ storageError err) ∧
  (∀ err w',
     DeregisterBuilding dr ctx buildingID w = Some (err, w') →
     err = None ∨ storageError err).
Proof.
  repeat split.
  - intros buildings err w'.
    destruct (lookupTable ctx (BuildingTableName (Config dr)) (DB w))
      as [t|e] eqn:Hlook.
    + assert (Done ctx = false ∧ buildingTable dr (DB w) = Some t) as [Hc Ht].
      { unfold lookupTable in Hlook. unfold buildingTable.
        destruct (Done ctx); [done|].
        destruct (Tables (DB w) !! _); [|done]. by injection Hlook as ->. }
      rewrite (ListBuildings_served _ _ _ _ Ht Hc). intros [= _ <- _].
      destruct (decodeItems (scanned t)).2 as [e|] eqn:He; [|by left].
      apply decodeItems_error in He as ->. right; right. by eexists.
    + rewrite (ListBuildings_refused _ _ _ _ Hlook). intros [= _ <- _].
      apply lookupTable_error in Hlook as [code ->]. right; left. by eexists.
  - intros building err w'. rewrite GetBuildingByID_run. cbn zeta.
    destruct (GetItemWithContext _ _ _ _).1 as [out [e|]] eqn:Hget; cbn.
    { intros [= _ <- _].
      destruct (GetItem_error ctx (BuildingTableName (Config dr))
                  {[ buildingIDAttributeName := AV_S buildingID ]} (DB w) e)
        as [code ->]; [by rewrite Hget|].
      right; left. by eexists. }
    destruct (Item out) as [item|]; cbn; [|intros [= _ <- _]; by left].
    fold (decodeItem item).
    destruct (decodeItem item) as [d [e|]] eqn:Hd; cbn;
      intros [= _ <- _]; [|by left].
    assert (e = UnmarshalTypeError "bool") as ->
      by (apply (decodeItem_error item); by rewrite Hd).
    right; right. by eexists.
  - intros building err w'.
    destruct in_ as [l|]; [|intros [= _ <- _]; right; left; by eexists].
    destruct (Heap w !! l) as [b|] eqn:Hl; cycle 1.
    { unfold RegisterBuilding, bind, load. by rewrite Hl. }
    destruct (decide (Name b = "")) as [Hn|Hn].
    { rewrite RegisterBuilding_invalid by (right; exists b; by split).
      intros [= _ <- _]. right; left. by eexists. }
    rewrite (RegisterBuilding_valid _ _ _ _ _ Hl Hn). cbn zeta.
    destruct (PutItem_cases ctx (BuildingTableName (Config dr))
                (encodeStruct (registered b w)) (DB w))
      as [[code ->]|(t & k & Hc & Ht & Hkey & ->)]; cbn;
      intros [= _ <- _]; [|by left].
    right; right. by eexists.
  - intros err w'. rewrite DeregisterBuilding_run. cbn zeta.
    destruct (DeleteItem_cases ctx (BuildingTableName (Config dr))
                buildingIDAttributeName buildingID (DB w))
      as [[code ->]|(t & Hc & Ht & Hk & ->)]; cbn; intros [= <- _];
      [|by left].
    right. by eexists.
Qed.

(** *** The integration test, run *)

Lemma load_run l b w : Heap w !! l = Some b → load l w = Some (b, w).
Proof. intros H. unfold load. by rewrite H. Qed.

Lemma NotEmpty_ULID u : NotEmpty (ULIDString u) = true.
Proof. apply bool_decide_eq_true, ULIDString_nonempty. Qed.

Lemma NotEqual_ULID (s : string) u :
  String.length s ≠ 26%nat → NotEqual s (ULIDString u) = true.
Proof.
  intros Hlen. apply bool_decide_eq_true. intros ->.
  by rewrite ULIDString_length in Hlen.
Qed.

(** X10. The integration test passes: on every world whose building table
    is keyed by the ID attribute and holds nothing under ["nonexistent"],
    each of the eleven assertions of [TestIntegrationBuildings] holds, and
    the test does not panic. *)
Theorem integration_test_passes testRegistrar t w :
  buildingTable testRegistrar (DB w) = Some t →
  HashKey t = buildingIDAttributeName →
  Rows t !! "nonexistent" = None →
  ∃ w', TestIntegrationBuildings testRegistrar w = Some (replicate 11 true, w').
Proof.
  intros Ht Hk Habsent. unfold TestIntegrationBuildings.
  (* get nonexistent building *)
  unfold bind at 1.
  rewrite (GetBuildingByID_absent testRegistrar background "nonexistent" t w
             Ht Hk eq_refl Habsent).
  cbn [fst snd NoError Nil].
  set (w1 := setDB _ w).
  assert (buildingTable testRegistrar (DB w1) = Some t) as Ht1 by exact Ht.
  clearbody w1.
  (* register building *)
  unfold bind at 1, getULID at 1.
  set (u := Draw (IDs w1) (Drawn (IDs w1))).
  set (w2 := {| Heap := Heap w1 |}).
  assert (buildingTable testRegistrar (DB w2) = Some t) as Ht2 by exact Ht1.
  clearbody w2 u.
  unfold bind at 1, new at 1.
  set (given := {| ID := "something"; Name := ULIDString u |}).
  set (w3 := setHeap _ w2).
  assert (buildingTable testRegistrar (DB w3) = Some t) as Ht3 by exact Ht2.
  assert (Heap w3 !! length (Heap w2) = Some given) as Hgiven3
    by apply lookup_fresh.
  assert (Name given ≠ "") as Hname by apply ULIDString_nonempty.
  clearbody w3.
  unfold bind at 1.
  rewrite (RegisterBuilding_served testRegistrar background (length (Heap w2))
             given t w3 Hgiven3 Hname Ht3 Hk eq_refl).
  cbn [fst snd NoError].
  set (returned := registered given w3).
  set (t4 := {| HashKey := HashKey t;
                Rows := <[ID returned := encodeStruct returned]> (Rows t) |}).
  set (w4 := setDB _ _).
  assert (buildingTable testRegistrar (DB w4) = Some t4) as Ht4
    by apply setRows_lookup.
  assert (Heap w4 !! length (Heap w3) = Some returned) as Hreturned4
    by apply lookup_fresh.
  assert (Heap w4 !! length (Heap w2) = Some given) as Hgiven4
    by (by apply lookup_app_l_Some).
  assert (Heap w4 = Heap w3 ++ [returned]) as Hheap4 by done.
  assert (ID returned = ULIDString (Draw (IDs w3) (Drawn (IDs w3)))) as Hid
    by done.
  clearbody w4 returned.
  unfold bind at 1, pointee at 1. rewrite (load_run _ _ _ Hreturned4).
  unfold bind at 1. rewrite (load_run _ _ _ Hgiven4).
  (* get existing building *)
  unfold bind at 1, pointee at 1. rewrite (load_run _ _ _ Hreturned4).
  unfold bind at 1.
  rewrite (GetBuildingByID_stored testRegistrar background (ID returned) t4
             (encodeStruct returned) w4 Ht4 Hk eq_refl (lookup_insert_eq _ _ _)).
  rewrite decodeItem_encode. cbn [fst snd NoError].
  set (w5 := setHeap _ _).
  assert (buildingTable testRegistrar (DB w5) = Some t4) as Ht5 by exact Ht4.
  assert (Heap w5 !! length (Heap w3) = Some returned) as Hreturned5
    by (by apply lookup_app_l_Some).
  assert (Heap w5 !! length (Heap w4) = Some returned) as Hcopy5
    by apply lookup_fresh.
  clearbody w5.
  unfold bind at 1, Equal at 1, bind at 1.
  rewrite (load_run _ _ _ Hreturned5). unfold bind at 1.
  rewrite (load_run _ _ _ Hcopy5). unfold ret at 1.
  rewrite bool_decide_eq_true_2 by done.
  (* deregister building *)
  unfold bind at 1, pointee at 1. rewrite (load_run _ _ _ Hreturned5).
  unfold bind at 1.
  rewrite (DeregisterBuilding_served testRegistrar background (ID returned) t4
             w5 Ht5 Hk eq_refl).
  cbn [fst snd NoError].
  set (t6 := {| HashKey := HashKey t4; Rows := delete (ID returned) (Rows t4) |}).
  set (w6 := setDB _ w5).
  assert (buildingTable testRegistrar (DB w6) = Some t6) as Ht6
    by apply setRows_lookup.
  assert (Heap w6 !! length (Heap w3) = Some returned) as Hreturned6
    by exact Hreturned5.
  clearbody w6.
  (* get deregistered building *)
  unfold bind at 1, pointee at 1. rewrite (load_run _ _ _ Hreturned6).
  unfold bind at 1.
  rewrite (GetBuildingByID_absent testRegistrar background (ID returned) t6 w6
             Ht6 Hk eq_refl (lookup_delete_eq _ _)).
  cbn [fst snd NoError Nil].
  set (w7 := setDB _ w6).
  assert (buildingTable testRegistrar (DB w7) = Some t6) as Ht7 by exact Ht6.
  clearbody w7.
  (* deregister nonexistent building should not error *)
  unfold bind at 1.
  rewrite (DeregisterBuilding_served testRegistrar background "nonexistent" t6
             w7 Ht7 Hk eq_refl).
  cbn [fst snd NoError]. unfold ret.
  rewrite Hid, NotEmpty_ULID, NotEqual_ULID by (cbn; lia).
  by eexists.
Qed.

(** *** The table invariant *)

Lemma GetItem_cases ctx tbl a id db :
  (∃ code, GetItemWithContext ctx tbl {[ a := AV_S id ]} db
           = ({| Item := None |}, Some (AWSError code),
              called (GetItem tbl {[ a := AV_S id ]}) db)) ∨
  (∃ t, Done ctx = false ∧ Tables db !! tbl = Some t ∧ HashKey t = a ∧
        GetItemWithContext ctx tbl {[ a := AV_S id ]} db
        = ({| Item := Rows t !! id |}, None,
           called (GetItem tbl {[ a := AV_S id ]}) db)).
Proof.
  unfold GetItemWithContext. cbn zeta. rewrite lookupTable_called.
  destruct (lookupTable ctx tbl db) as [t|e] eqn:Hlook.
  - destruct (keyValue _ _) as [k|] eqn:Hkey.
    + apply keyValue_singleton_inv in Hkey as [Ha ->]. right. exists t.
      unfold lookupTable in Hlook. destruct (Done ctx); [done|].
      destruct (Tables db !! tbl); [|done]. by injection Hlook as ->.
    + left. by eexists.
  - left. apply lookupTable_error in Hlook as [code ->]. by eexists.
Qed.

Lemma ListBuildings_tables dr ctx w r w' :
  ListBuildings dr ctx w = Some (r, w') → Tables (DB w') = Tables (DB w).
Proof.
  destruct (lookupTable ctx (BuildingTableName (Config dr)) (DB w))
    as [t|e] eqn:Hlook.
  - assert (Done ctx = false ∧ buildingTable dr (DB w) = Some t) as [Hc Ht].
    { unfold lookupTable in Hlook. unfold buildingTable.
      destruct (Done ctx); [done|].
      destruct (Tables (DB w) !! _); [|done]. by injection Hlook as ->. }
    rewrite (ListBuildings_served _ _ _ _ Ht Hc). by intros [= _ <-].
  - rewrite (ListBuildings_refused _ _ _ _ Hlook). by intros [= _ <-].
Qed.

Lemma GetBuildingByID_tables dr ctx id w r w' :
  GetBuildingByID dr ctx id w = Some (r, w') → Tables (DB w') = Tables (DB w).
Proof.
  rewrite GetBuildingByID_run. cbn zeta. rewrite GetItem_db.
  destruct (GetItemWithContext _ _ _ _).1 as [out [e|]]; cbn.
  { by intros [= _ <-]. }
  destruct (Item out); by intros [= _ <-].
Qed.

Lemma wellKeyed_insert t b :
  wellKeyed t →
  wellKeyed {| HashKey := HashKey t;
               Rows := <[ID b := encodeStruct b]> (Rows t) |}.
Proof.
  intros [Hk Hrows]. split; [done|]. intros k item. cbn.
  destruct (decide (ID b = k)) as [<-|Hne].
  - rewrite lookup_insert_eq. intros [= <-]. by exists b.
  - rewrite lookup_insert_ne by done. apply Hrows.
Qed.

Lemma wellKeyed_delete t id :
  wellKeyed t →
  wellKeyed {| HashKey := HashKey t; Rows := delete id (Rows t) |}.
Proof.
  intros [Hk Hrows]. split; [done|]. intros k item. cbn.
  intros [_ Hitem]%lookup_delete_Some. by apply Hrows.
Qed.

Lemma RegisterBuilding_invariant dr ctx in_ w r w' :
  RegisterBuilding dr ctx in_ w = Some (r, w') →
  tableInvariant dr (DB w) → tableInvariant dr (DB w').
Proof.
  intros Hreg Hinv.
  destruct in_ as [l|]; [|by injection Hreg as _ <-].
  destruct (Heap w !! l) as [b|] eqn:Hl; cycle 1.
  { unfold RegisterBuilding, bind, load in Hreg. by rewrite Hl in Hreg. }
  destruct (decide (Name b = "")) as [Hn|Hn].
  { rewrite RegisterBuilding_invalid in Hreg by (right; exists b; by split).
    by injection Hreg as _ <-. }
  rewrite (RegisterBuilding_valid _ _ _ _ _ Hl Hn) in Hreg. cbn zeta in Hreg.
  destruct (PutItem_cases ctx (BuildingTableName (Config dr))
              (encodeStruct (registered b w)) (DB w))
    as [[code Hput]|(t & k & Hc & Ht & Hkey & Hput)];
    rewrite Hput in Hreg; injection Hreg as _ <-; [exact Hinv|].
  intros t'. unfold buildingTable. cbn. rewrite lookup_insert_eq.
  intros [= <-]. destruct (Hinv t Ht) as [Hk Hrows].
  rewrite Hk, encodeStruct_key in Hkey by apply ULIDString_nonempty.
  injection Hkey as <-. by apply wellKeyed_insert.
Qed.

Lemma DeregisterBuilding_invariant dr ctx id w err w' :
  DeregisterBuilding dr ctx id w = Some (err, w') →
  tableInvariant dr (DB w) → tableInvariant dr (DB w').
Proof.
  rewrite DeregisterBuilding_run. cbn zeta. intros Hd Hinv.
  destruct (DeleteItem_cases ctx (BuildingTableName (Config dr))
              buildingIDAttributeName id (DB w))
    as [[code Hdel]|(t & Hc & Ht & Hk & Hdel)];
    rewrite Hdel in Hd; injection Hd as _ <-; [exact Hinv|].
  intros t'. unfold buildingTable. cbn. rewrite lookup_insert_eq.
  intros [= <-]. by apply wellKeyed_delete, Hinv.
Qed.

(** X11. The four methods keep the building table well keyed: when every
    item of the table is the encoding of a building, stored under that
    building's ID in a table keyed by the ID attribute, this is still so
    after any call of any of the methods, whatever the call returns. *)
Theorem methods_keep_table_well_keyed dr ctx in_ buildingID w :
  tableInvariant dr (DB w) →
  (∀ r w', ListBuildings dr ctx w = Some (r, w') → tableInvariant dr (DB w')) ∧
  (∀ r w', GetBuildingByID dr ctx buildingID w = Some (r, w') →
           tableInvariant dr (DB w')) ∧
  (∀ r w', RegisterBuilding dr ctx in_ w = Some (r, w') →
           tableInvariant dr (DB w')) ∧
  (∀ r w', DeregisterBuilding dr ctx buildingID w = Some (r, w') →
           tableInvariant dr (DB w')).
Proof.
  intros Hinv. split; [|split; [|split]].
  - intros r w' Hrun t. unfold buildingTable.
    rewrite (ListBuildings_tables _ _ _ _ _ Hrun). apply Hinv.
  - intros r w' Hrun t. unfold buildingTable.
    rewrite (GetBuildingByID_tables _ _ _ _ _ _ Hrun). apply Hinv.
  - intros r w' Hrun. eauto using RegisterBuilding_invariant.
  - intros r w' Hrun. eauto using DeregisterBuilding_invariant.
Qed.

(** X12. On a well keyed table, a building [GetBuildingByID] returns has
    the requested ID. *)
Theorem get_returns_requested_id dr ctx buildingID w p err w' :
  tableInvariant dr (DB w) →
  GetBuildingByID dr ctx buildingID w = Some (Some p, err, w') →
  ∃ b, Heap w' !! p = Some b ∧ ID b = buildingID.
Proof.
  intros Hinv. rewrite GetBuildingByID_run. cbn zeta.
  destruct (GetItem_cases ctx (BuildingTableName (Config dr))
              buildingIDAttributeName buildingID (DB w))
    as [[code ->]|(t & Hc & Ht & Hk & ->)]; cbn; [done|].
  destruct (Rows t !! buildingID) as [item|] eqn:Hitem; [|done].
  destruct (Hinv t Ht) as [_ Hrows].
  destruct (Hrows _ _ Hitem) as (b & -> & Hid).
  fold (decodeItem (encodeStruct b)). rewrite decodeItem_encode. cbn.
  intros [= <- _ <-]. exists b. split; [apply lookup_fresh|done].
Qed.

(** X13. A deregistered building is gone from the list.  On a well keyed
    table, [DeregisterBuilding] followed by [ListBuildings] gives no error
    and a slice with one element per remaining item, none of which points
    to a building with the deregistered ID.  Both requests are served. *)
Theorem list_after_deregister dr ctx ctx' id t w :
  buildingTable dr (DB w) = Some t → wellKeyed t →
  Done ctx = false → Done ctx' = false →
  ∃ w1 buildings w2,
    DeregisterBuilding dr ctx id w = Some (None, w1) ∧
    ListBuildings dr ctx' w1 = Some (buildings, None, w2) ∧
    length (elems buildings) = size (delete id (Rows t)) ∧
    ∀ i p b, elems buildings !! i = Some (Some p) →
             Heap w2 !! p = Some b → ID b ≠ id.
Proof.
  intros Ht Hwell Hc Hc'. pose proof Hwell as [Hk _].
  rewrite (DeregisterBuilding_served _ _ _ _ _ Ht Hk Hc).
  set (t1 := {| HashKey := HashKey t; Rows := delete id (Rows t) |}).
  set (w1 := setDB _ w).
  assert (buildingTable dr (DB w1) = Some t1) as Ht1 by apply setRows_lookup.
  assert (wellKeyed t1) as [_ Hrows1] by by apply wellKeyed_delete.
  assert (∀ item, item ∈ scanned t1 →
                  ∃ b, decodeItem item = (b, None) ∧ ID b ≠ id) as Hitems1.
  { intros item [k Hitem]%scanned_elem_of.
    destruct (Hrows1 _ _ Hitem) as (b & -> & <-).
    exists b. split; [apply decodeItem_encode|].
    cbn in Hitem. apply lookup_delete_Some in Hitem as [Hne _]. congruence. }
  destruct (ListBuildings_decodable dr ctx' t1 w1 Ht1 Hc')
    as (buildings & w2 & Hlist & Hlen & Hitems & _).
  { apply Forall_forall. intros item (b & -> & _)%Hitems1. done. }
  exists w1, buildings, w2. split; [done|]. split; [done|]. split; [done|].
  intros i p b Hp Hb.
  assert (is_Some (scanned t1 !! i)) as [item Hi].
  { apply lookup_lt_is_Some. unfold scanned.
    rewrite length_fmap, length_map_to_list, <- Hlen.
    exact (lookup_lt_Some _ _ _ Hp). }
  destruct (Hitems i item Hi) as (p' & Hp' & _ & Hheap).
  rewrite Hp in Hp'. injection Hp' as <-.
  destruct (Hitems1 item) as (b' & Hdec & Hne);
    [eauto using list_elem_of_lookup_2|].
  rewrite Hdec in Hheap. cbn in Hheap. congruence.
Qed.
End Registrar.

(** ** The properties on the sample worlds *)

Lemma sample_names_differ : "id" ≠ "name".
Proof. discriminate. Qed.

Lemma sample_input_live : live (Some 0%nat) sampleWorld.
Proof. right. by eexists. Qed.

Lemma outcome_inv {A : Type} (m : M A) (w : World) (a : A) (h : list Building) :
  outcome m w = Some (a, h) → ∃ w', m w = Some (a, w') ∧ Heap w' = h.
Proof.
  unfold outcome. destruct (m w) as [[a' w']|]; cbn; [|done].
  intros [= -> <-]. by eexists.
Qed.

Lemma register_get_roundtrip_sample :
  (Heap sampleWorld !! 0%nat = Some {| ID := "something"; Name := "Main" |} ∧
   Name {| ID := "something"; Name := "Main" |} ≠ "" ∧
   buildingTable sampleRegistrar (DB sampleWorld) = Some emptyTable ∧
   HashKey emptyTable = "id" ∧ Done background = false) ∧
  ∃ q w1 returned,
    RegisterBuilding "id" "name" sampleRegistrar background (Some 0%nat) sampleWorld
    = Some (Some q, None, w1) ∧
    Heap w1 !! q = Some returned ∧
    ∃ p w2,
      GetBuildingByID "id" "name" sampleRegistrar background (ID returned) w1
      = Some (Some p, None, w2) ∧
      Heap w2 !! p = Some returned ∧ Heap w2 !! q = Some returned.
Proof.
  split; [by repeat split|].
  apply (register_get_roundtrip "id" "name" sample_names_differ sampleRegistrar
           background background 0%nat {| ID := "something"; Name := "Main" |}
           emptyTable sampleWorld); by vm_compute.
Defined.

Lemma get_absent_is_nil_sample :
  (buildingTable sampleRegistrar (DB sampleWorld) = Some emptyTable ∧
   Rows emptyTable !! "nonexistent" = None) ∧
  ∃ w', GetBuildingByID "id" "name" sampleRegistrar background "nonexistent" sampleWorld
        = Some (None, None, w') ∧
        Heap w' = Heap sampleWorld ∧ Tables (DB w') = Tables (DB sampleWorld).
Proof.
  split; [by split|].
  apply (get_absent_is_nil "id" "name" sampleRegistrar background "nonexistent"
           emptyTable sampleWorld); by vm_compute.
Defined.

Lemma register_overwrites_id_sample :
  deref (Some 0%nat) sampleWorld = Some {| ID := "something"; Name := "Main" |} ∧
  ∃ w' returned,
    RegisterBuilding "id" "name" sampleRegistrar background (Some 0%nat) sampleWorld
    = Some (Some 1%nat, None, w') ∧
    Heap w' !! 1%nat = Some returned ∧
    ID returned = "01BMZFF6000000000000000C1S" ∧ ID returned ≠ "something".
Proof.
  split; [done|].
  destruct (outcome_inv
              (RegisterBuilding "id" "name" sampleRegistrar background (Some 0%nat))
              sampleWorld (Some 1%nat, None)
              [ {| ID := "something"; Name := "Main" |};
                {| ID := "01BMZFF6000000000000000C1S"; Name := "Main" |} ])
    as (w' & Hreg & Hheap); [by vm_compute|].
  destruct (register_overwrites_id "id" "name" sampleRegistrar background
              (Some 0%nat) {| ID := "something"; Name := "Main" |} 1%nat
              sampleWorld w' eq_refl Hreg)
    as (returned & Hq & Hid & _ & _ & Hne).
  exists w', returned. split; [exact Hreg|]. split; [exact Hq|].
  split; [exact Hid|]. apply Hne. by vm_compute.
Defined.

(** C3 as worded does not hold.  The caller hands in a building whose ID
    is the identifier the generator is about to hand out; the input is
    accepted, and the building comes back with the ID it came in with. *)
Lemma register_collision :
  deref (Some 0%nat) collisionWorld
  = Some {| ID := "01BMZFF6000000000000000C1S"; Name := "Main" |} ∧
  ULIDString (Draw (IDs collisionWorld) (Drawn (IDs collisionWorld)))
  = "01BMZFF6000000000000000C1S" ∧
  ∃ w',
    RegisterBuilding "id" "name" sampleRegistrar background (Some 0%nat) collisionWorld
    = Some (Some 1%nat, None, w') ∧
    Heap w' !! 1%nat
    = Some {| ID := "01BMZFF6000000000000000C1S"; Name := "Main" |}.
Proof.
  split; [done|]. split; [by vm_compute|].
  destruct (outcome_inv
              (RegisterBuilding "id" "name" sampleRegistrar background (Some 0%nat))
              collisionWorld (Some 1%nat, None)
              [ {| ID := "01BMZFF6000000000000000C1S"; Name := "Main" |};
                {| ID := "01BMZFF6000000000000000C1S"; Name := "Main" |} ])
    as (w' & Hreg & Hheap); [by vm_compute|].
  exists w'. split; [done|]. by rewrite Hheap.
Qed.

Lemma register_invalid_argument_sample :
  live (Some 0%nat) sampleWorld ∧
  ∃ building err w',
    RegisterBuilding "id" "name" sampleRegistrar background (Some 0%nat) sampleWorld
    = Some (building, err, w') ∧
    (InvalidArgument err ↔ invalidInput (Some 0%nat) sampleWorld) ∧
    (InvalidArgument err →
     building = None ∧ w' = sampleWorld ∧ Calls (DB w') = Calls (DB sampleWorld)).
Proof.
  split; [apply sample_input_live|].
  apply (register_invalid_argument "id" "name" sampleRegistrar background
           (Some 0%nat) sampleWorld sample_input_live).
Defined.

Lemma deregister_never_fails_sample :
  buildingTable sampleRegistrar (DB sampleWorld) = Some emptyTable ∧
  ∃ w' t',
    DeregisterBuilding "id" sampleRegistrar background "nonexistent" sampleWorld
    = Some (None, w') ∧
    buildingTable sampleRegistrar (DB w') = Some t' ∧
    Rows t' = delete "nonexistent" (Rows emptyTable).
Proof.
  split; [done|].
  apply (deregister_never_fails "id" sampleRegistrar background "nonexistent"
           emptyTable sampleWorld); by vm_compute.
Defined.

Lemma register_deregister_get_sample :
  (Heap sampleWorld !! 0%nat = Some {| ID := "something"; Name := "Main" |} ∧
   buildingTable sampleRegistrar (DB sampleWorld) = Some emptyTable) ∧
  ∃ q w1 returned,
    RegisterBuilding "id" "name" sampleRegistrar background (Some 0%nat) sampleWorld
    = Some (Some q, None, w1) ∧
    Heap w1 !! q = Some returned ∧
    ∃ w2 w3,
      DeregisterBuilding "id" sampleRegistrar background (ID returned) w1
      = Some (None, w2) ∧
      GetBuildingByID "id" "name" sampleRegistrar background (ID returned) w2
      = Some (None, None, w3).
Proof.
  split; [by split|].
  apply (register_deregister_get "id" "name" sampleRegistrar
           background background background 0%nat
           {| ID := "something"; Name := "Main" |} emptyTable sampleWorld);
    by vm_compute.
Defined.

Lemma list_of_empty_table_sample :
  (buildingTable sampleRegistrar (DB sampleWorld) = Some emptyTable ∧
   Rows emptyTable = ∅) ∧
  ∃ buildings w',
    ListBuildings "id" "name" sampleRegistrar background sampleWorld
    = Some (buildings, None, w') ∧
    buildings ≠ nil_slice ∧ elems buildings = [].
Proof.
  split; [by split|].
  apply (list_of_empty_table "id" "name" sampleRegistrar background emptyTable
           sampleWorld); by vm_compute.
Defined.

(** C8, at a failing input. The table holds a well-formed item and one
    whose name is a boolean. [ListBuildings] returns the decode error, and
    with it a slice of two pointers, the first to the building decoded
    from the well-formed item. *)
Theorem list_partial_on_decode_error :
  ∃ w',
    ListBuildings "id" "name" sampleRegistrar background mixedWorld
    = Some (Slice [Some 0%nat; Some 1%nat] 2,
            Some (WithStack (UnmarshalTypeError "bool")), w') ∧
    Heap w' !! 0%nat = Some {| ID := "A1"; Name := "Annex" |}.
Proof.
  destruct (outcome_inv
              (ListBuildings "id" "name" sampleRegistrar background) mixedWorld
              (Slice [Some 0%nat; Some 1%nat] 2,
               Some (WithStack (UnmarshalTypeError "bool")))
              [ {| ID := "A1"; Name := "Annex" |}; {| ID := "B2"; Name := "" |} ])
    as (w' & Hlist & Hheap); [by vm_compute|].
  exists w'. split; [done|]. by rewrite Hheap.
Qed.

Lemma register_leaves_input_sample :
  live (Some 0%nat) sampleWorld ∧
  ∃ building err w',
    RegisterBuilding "id" "name" sampleRegistrar background (Some 0%nat) sampleWorld
    = Some (building, err, w') ∧
    (∀ l b, Heap sampleWorld !! l = Some b → Heap w' !! l = Some b) ∧
    (err = None →
     ∃ q given returned,
       building = Some q ∧ Some 0%nat ≠ Some q ∧
       deref (Some 0%nat) sampleWorld = Some given ∧
       deref (Some 0%nat) w' = Some given ∧
       Heap w' !! q = Some returned ∧
       returned = {| ID := ID returned; Name := Name given |}).
Proof.
  split; [apply sample_input_live|].
  apply (register_leaves_input "id" "name" sampleRegistrar background
           (Some 0%nat) sampleWorld sample_input_live).
Defined.

Lemma no_building_with_error_sample :
  live (Some 0%nat) sampleWorld ∧
  (∃ building err w',
     RegisterBuilding "id" "name" sampleRegistrar cancelled (Some 0%nat) sampleWorld
     = Some (building, err, w') ∧
     (is_Some err → building = None)) ∧
  (∃ building err w',
     GetBuildingByID "id" "name" sampleRegistrar cancelled "something" sampleWorld
     = Some (building, err, w') ∧
     (is_Some err → building = None)).
Proof.
  split; [apply sample_input_live|].
  apply (no_building_with_error "id" "name" sampleRegistrar cancelled
           (Some 0%nat) "something" sampleWorld sample_input_live).
Defined.

(** ** The further properties on the sample worlds *)

Lemma annexTable_wellKeyed : wellKeyed "id" "name" annexTable.
Proof.
  split; [done|]. intros k item Hitem.
  cbv beta iota delta [annexTable Rows] in Hitem.
  apply lookup_singleton_Some in Hitem as [<- <-].
  exists {| ID := "A1"; Name := "Annex" |}. split; [by vm_compute|done].
Qed.

Lemma annexWorld_invariant :
  tableInvariant "id" "name" sampleRegistrar (DB annexWorld).
Proof.
  intros t Ht.
  assert (buildingTable sampleRegistrar (DB annexWorld) = Some annexTable)
    as Hsome by (by vm_compute).
  rewrite Hsome in Ht. injection Ht as <-.
  apply annexTable_wellKeyed.
Qed.

Lemma annexTable_decodes :
  Forall (λ m, (decodeItem "id" "name" m).2 = None) (scanned annexTable).
Proof. by vm_compute; repeat constructor. Qed.

Lemma list_returns_every_item_sample :
  buildingTable sampleRegistrar (DB annexWorld) = Some annexTable ∧
  ∃ buildings w',
    ListBuildings "id" "name" sampleRegistrar background annexWorld
    = Some (buildings, None, w') ∧
    length (elems buildings) = size (Rows annexTable) ∧
    (∀ i item, scanned annexTable !! i = Some item →
       ∃ p, elems buildings !! i = Some (Some p) ∧
            Heap annexWorld !! p = None ∧
            Heap w' !! p = Some (decodeItem "id" "name" item).1) ∧
    (∀ l b, Heap annexWorld !! l = Some b → Heap w' !! l = Some b) ∧
    Tables (DB w') = Tables (DB annexWorld).
Proof.
  split; [by vm_compute|].
  apply (list_returns_every_item "id" "name" sampleRegistrar background
           annexTable annexWorld);
    [by vm_compute|reflexivity|apply annexTable_decodes].
Defined.

Lemma list_after_register_sample :
  ∃ q w1 returned buildings w2,
    RegisterBuilding "id" "name" sampleRegistrar background (Some 0%nat) annexWorld
    = Some (Some q, None, w1) ∧
    Heap w1 !! q = Some returned ∧
    ListBuildings "id" "name" sampleRegistrar background w1
    = Some (buildings, None, w2) ∧
    ∃ i p, elems buildings !! i = Some (Some p) ∧ Heap w2 !! p = Some returned.
Proof.
  apply (list_after_register "id" "name" sample_names_differ sampleRegistrar
           background background 0%nat {| ID := "something"; Name := "Main" |}
           annexTable annexWorld); try by vm_compute.
  intros k item Hitem.
  destruct (proj2 annexTable_wellKeyed k item Hitem) as (b & -> & _). by exists b.
Defined.

Lemma list_only_reads_sample :
  ∃ buildings err w',
    ListBuildings "id" "name" sampleRegistrar cancelled annexWorld
    = Some (buildings, err, w') ∧
    Tables (DB w') = Tables (DB annexWorld) ∧
    Calls (DB w') = Scan "buildings" :: Calls (DB annexWorld) ∧
    (∀ l b, Heap annexWorld !! l = Some b → Heap w' !! l = Some b) ∧
    (Done cancelled = true ∨ buildingTable sampleRegistrar (DB annexWorld) = None →
     buildings = nil_slice ∧ is_Some err ∧ Heap w' = Heap annexWorld).
Proof.
  apply (list_only_reads "id" "name" sampleRegistrar cancelled annexWorld).
Defined.

Lemma get_only_reads_sample :
  ∃ building err w',
    GetBuildingByID "id" "name" sampleRegistrar background "A1" annexWorld
    = Some (building, err, w') ∧
    Tables (DB w') = Tables (DB annexWorld) ∧
    Calls (DB w') = GetItem "buildings" {[ "id" := AV_S "A1" ]}
                    :: Calls (DB annexWorld) ∧
    (∀ l b, Heap annexWorld !! l = Some b → Heap w' !! l = Some b) ∧
    (∀ p, building = Some p →
          Heap annexWorld !! p = None ∧ is_Some (Heap w' !! p)).
Proof.
  apply (get_only_reads "id" "name" sampleRegistrar background "A1" annexWorld).
Defined.

Lemma get_twice_no_alias_sample :
  Rows annexTable !! "A1" = Some {[ "id" := AV_S "A1"; "name" := AV_S "Annex" ]} ∧
  ∃ p1 w1 p2 w2,
    GetBuildingByID "id" "name" sampleRegistrar background "A1" annexWorld
    = Some (Some p1, None, w1) ∧
    GetBuildingByID "id" "name" sampleRegistrar background "A1" w1
    = Some (Some p2, None, w2) ∧
    p1 ≠ p2 ∧
    Heap w2 !! p1
    = Some (decodeItem "id" "name"
              {[ "id" := AV_S "A1"; "name" := AV_S "Annex" ]}).1 ∧
    Heap w2 !! p2
    = Some (decodeItem "id" "name"
              {[ "id" := AV_S "A1"; "name" := AV_S "Annex" ]}).1.
Proof.
  split; [by vm_compute|].
  apply (get_twice_no_alias "id" "name" sampleRegistrar background background
           "A1" annexTable {[ "id" := AV_S "A1"; "name" := AV_S "Annex" ]}
           annexWorld); by vm_compute.
Defined.

Lemma deregister_twice_sample :
  buildingTable sampleRegistrar (DB annexWorld) = Some annexTable ∧
  ∃ w1 w2,
    DeregisterBuilding "id" sampleRegistrar background "A1" annexWorld
    = Some (None, w1) ∧
    DeregisterBuilding "id" sampleRegistrar background "A1" w1 = Some (None, w2) ∧
    Tables (DB w2) = Tables (DB w1) ∧ Heap w2 = Heap annexWorld.
Proof.
  split; [by vm_compute|].
  apply (deregister_twice "id" sampleRegistrar background background "A1"
           annexTable annexWorld); by vm_compute.
Defined.

Lemma deregister_removes_only_that_item_sample :
  ∃ err w',
    DeregisterBuilding "id" sampleRegistrar background "A1" annexWorld
    = Some (err, w') ∧
    Heap w' = Heap annexWorld ∧
    (∀ name, name ≠ "buildings" →
             Tables (DB w') !! name = Tables (DB annexWorld) !! name) ∧
    (is_Some err → Tables (DB w') = Tables (DB annexWorld)) ∧
    (∀ t, buildingTable sampleRegistrar (DB annexWorld) = Some t →
          ∃ t', buildingTable sampleRegistrar (DB w') = Some t' ∧
                HashKey t' = HashKey t ∧
                ∀ k, k ≠ "A1" → Rows t' !! k = Rows t !! k).
Proof.
  apply (deregister_removes_only_that_item "id" sampleRegistrar background
           "A1" annexWorld).
Defined.

Lemma register_stores_what_it_returns_sample :
  live (Some 0%nat) annexWorld ∧
  ∃ building err w',
    RegisterBuilding "id" "name" sampleRegistrar background (Some 0%nat) annexWorld
    = Some (building, err, w') ∧
    (∀ name, name ≠ "buildings" →
             Tables (DB w') !! name = Tables (DB annexWorld) !! name) ∧
    (is_Some err → building = None ∧ Tables (DB w') = Tables (DB annexWorld)) ∧
    (err = None →
     ∃ q returned t k,
       building = Some q ∧ Heap w' !! q = Some returned ∧
       buildingTable sampleRegistrar (DB annexWorld) = Some t ∧
       buildingTable sampleRegistrar (DB w')
       = Some {| HashKey := HashKey t;
                 Rows := <[k := encodeStruct "id" "name" returned]> (Rows t) |} ∧
       (HashKey t = "id" → k = ID returned)).
Proof.
  assert (live (Some 0%nat) annexWorld) as Hlive by (right; by eexists).
  split; [exact Hlive|].
  apply (register_stores_what_it_returns "id" "name" sampleRegistrar background
           (Some 0%nat) annexWorld Hlive).
Defined.

Lemma errors_are_wrapped_sample :
  ∃ w',
    ListBuildings "id" "name" sampleRegistrar background mixedWorld
    = Some (Slice [Some 0%nat; Some 1%nat] 2,
            Some (WithStack (UnmarshalTypeError "bool")), w') ∧
    (Some (WithStack (UnmarshalTypeError "bool")) = None ∨
     storageError (Some (WithStack (UnmarshalTypeError "bool"))) ∨
     decodeError (Some (WithStack (UnmarshalTypeError "bool")))).
Proof.
  destruct (outcome_inv
              (ListBuildings "id" "name" sampleRegistrar background) mixedWorld
              (Slice [Some 0%nat; Some 1%nat] 2,
               Some (WithStack (UnmarshalTypeError "bool")))
              [ {| ID := "A1"; Name := "Annex" |}; {| ID := "B2"; Name := "" |} ])
    as (w' & Hrun & _); [by vm_compute|].
  exists w'. split; [exact Hrun|].
  exact (proj1 (errors_are_wrapped "id" "name" sampleRegistrar background None
                  "B2" mixedWorld) _ _ _ Hrun).
Defined.

Lemma integration_test_passes_sample :
  (buildingTable sampleRegistrar (DB annexWorld) = Some annexTable ∧
   Rows annexTable !! "nonexistent" = None) ∧
  ∃ w', TestIntegrationBuildings "id" "name" sampleRegistrar annexWorld
        = Some (replicate 11 true, w').
Proof.
  split; [by vm_compute|].
  apply (integration_test_passes "id" "name" sample_names_differ
           sampleRegistrar annexTable annexWorld); by vm_compute.
Defined.

Lemma methods_keep_table_well_keyed_sample :
  tableInvariant "id" "name" sampleRegistrar (DB annexWorld) ∧
  (∀ r w', ListBuildings "id" "name" sampleRegistrar background annexWorld
           = Some (r, w') →
           tableInvariant "id" "name" sampleRegistrar (DB w')) ∧
  (∀ r w', GetBuildingByID "id" "name" sampleRegistrar background "A1" annexWorld
           = Some (r, w') →
           tableInvariant "id" "name" sampleRegistrar (DB w')) ∧
  (∀ r w', RegisterBuilding "id" "name" sampleRegistrar background (Some 0%nat)
             annexWorld = Some (r, w') →
           tableInvariant "id" "name" sampleRegistrar (DB w')) ∧
  (∀ r w', DeregisterBuilding "id" sampleRegistrar background "A1" annexWorld
           = Some (r, w') →
           tableInvariant "id" "name" sampleRegistrar (DB w')).
Proof.
  split; [apply annexWorld_invariant|].
  apply (methods_keep_table_well_keyed "id" "name" sampleRegistrar background
           (Some 0%nat) "A1" annexWorld annexWorld_invariant).
Defined.

Lemma get_returns_requested_id_sample :
  ∃ p w' b,
    GetBuildingByID "id" "name" sampleRegistrar background "A1" annexWorld
    = Some (Some p, None, w') ∧
    Heap w' !! p = Some b ∧ ID b = "A1".
Proof.
  destruct (outcome_inv
              (GetBuildingByID "id" "name" sampleRegistrar background "A1")
              annexWorld (Some 1%nat, None)
              [ {| ID := "something"; Name := "Main" |};
                {| ID := "A1"; Name := "Annex" |} ])
    as (w' & Hget & _); [by vm_compute|].
  destruct (get_returns_requested_id "id" "name" sample_names_differ
              sampleRegistrar background "A1" annexWorld 1%nat None w'
              annexWorld_invariant Hget) as (b & Hb & Hid).
  exists 1%nat, w', b. split; [exact Hget|]. split; [exact Hb|exact Hid].
Defined.

Lemma list_after_deregister_sample :
  wellKeyed "id" "name" annexTable ∧
  ∃ w1 buildings w2,
    DeregisterBuilding "id" sampleRegistrar background "A1" annexWorld
    = Some (None, w1) ∧
    ListBuildings "id" "name" sampleRegistrar background w1
    = Some (buildings, None, w2) ∧
    length (elems buildings) = size (delete "A1" (Rows annexTable)) ∧
    ∀ i p b, elems buildings !! i = Some (Some p) →
             Heap w2 !! p = Some b → ID b ≠ "A1".
Proof.
  split; [apply annexTable_wellKeyed|].
  apply (list_after_deregister "id" "name" sample_names_differ sampleRegistrar
           background background "A1" annexTable annexWorld);
    [by vm_compute|apply annexTable_wellKeyed|reflexivity|reflexivity].
Defined.
